(** * git-simple-merge: the conflict parser, the renderers and the
      interactive controller of [git-simple-merge.py]

    A Python [str] is a [string]: each [ascii] stands for one character
    (code points below 256).  A Python [int] is a [Z].  A file is the list
    of lines [readlines] returns.  Whatever the program gets from outside
    (the colour codes of colorama, the editor and vimdiff processes, the
    git index) is a field of [Collaborators]. *)

From Stdlib Require Import ZArith Ascii String List Lia Bool.
From Stdlib Require Import DecimalString.
From stdpp Require Import base list strings gmap.

Local Open Scope string_scope.
Local Open Scope list_scope.
Local Open Scope Z_scope.

(** ** Python strings and slices *)

Module Py.

Definition NL : string := String "010"%char EmptyString.

(** [s.startswith(p)] *)
Definition startswith (s p : string) : bool := String.prefix p s.

(** One bound of a slice over a sequence of length [n]: a negative bound
    counts from the end, and both are clamped to [0, n]. *)
Definition slice_bound (n i : Z) : Z :=
  if i <? 0 then Z.max (i + n) 0 else Z.min i n.

(** [l[lo:hi]] *)
Definition slice {A : Type} (l : list A) (lo hi : Z) : list A :=
  let n := Z.of_nat (length l) in
  let lo' := slice_bound n lo in
  let hi' := slice_bound n hi in
  take (Z.to_nat (hi' - lo')) (drop (Z.to_nat lo') l).

(** [len(l)] *)
Definition len {A : Type} (l : list A) : Z := Z.of_nat (length l).

(** The characters [str.isspace] accepts, below 256. *)
Definition isspace (c : ascii) : bool :=
  let n := N_of_ascii c in
  ((9 <=? n) && (n <=? 13) || (28 <=? n) && (n <=? 32)
   || (n =? 133) || (n =? 160))%N.

(** [s.lstrip()] *)
Fixpoint lstrip (s : string) : string :=
  match s with
  | String c s' => if isspace c then lstrip s' else s
  | EmptyString => EmptyString
  end.

(** [s.rstrip()] *)
Fixpoint rstrip (s : string) : string :=
  match s with
  | String c s' =>
      match rstrip s' with
      | EmptyString => if isspace c then EmptyString else String c EmptyString
      | r => String c r
      end
  | EmptyString => EmptyString
  end.

(** [s.strip()] *)
Definition strip (s : string) : string := rstrip (lstrip s).

Definition lower_char (c : ascii) : ascii :=
  let n := N_of_ascii c in
  if ((65 <=? n) && (n <=? 90)
      || (192 <=? n) && (n <=? 222) && negb (n =? 215))%N
  then ascii_of_N (n + 32) else c.

(** [s.lower()] *)
Fixpoint lower (s : string) : string :=
  match s with
  | String c s' => String (lower_char c) (lower s')
  | EmptyString => EmptyString
  end.

(** [str(i)] *)
Definition str_of_int (i : Z) : string := NilZero.string_of_int (Z.to_int i).

Fixpoint spaces (n : nat) : string :=
  match n with
  | O => EmptyString
  | S n' => String " "%char (spaces n')
  end.

(** [f"{i:4d}"]: right-justified in a field of width four. *)
Definition fmt_4d (i : Z) : string :=
  let s := str_of_int i in
  spaces (4 - String.length s) +:+ s.

(** ['=' * n] *)
Fixpoint rule (n : nat) : string :=
  match n with
  | O => EmptyString
  | S n' => String "="%char (rule n')
  end.

(** What a call can end in: a value, [sys.exit(code)], an uncaught
    exception, or (for a loop run on fuel) no answer yet. *)
Inductive exn : Type :=
| AttributeError (obj attr : string)
| TypeError
| EOFError
| OSError
| SubprocessError
| IndexError.

Inductive outcome (A : Type) : Type :=
| Done (a : A)
| SysExit (code : Z)
| Raised (e : exn)
| OutOfFuel.

Arguments Done {A} a.
Arguments SysExit {A} code.
Arguments Raised {A} e.
Arguments OutOfFuel {A}.

(** Sequencing: anything but a value ends the call. *)
Definition obind {A B : Type} (f : A -> outcome B) (c : outcome A)
    : outcome B :=
  match c with
  | Done a => f a
  | SysExit code => SysExit code
  | Raised e => Raised e
  | OutOfFuel => OutOfFuel
  end.

#[global] Instance outcome_bind : MBind outcome := @obind.
#[global] Instance outcome_ret : MRet outcome := @Done.

End Py.

Import Py.

(** ** The data model (lines 18-30) *)

Inductive ViewMode : Type := HUNK | FILE.

Definition ViewMode_value (m : ViewMode) : string :=
  match m with HUNK => "hunk" | FILE => "file" end.

Record ConflictHunk : Type := mkHunk {
  header : string;
  ours : list string;
  theirs : list string;
  context_before : list string;
  context_after : list string;
  start_line : option Z
}.

(** ** Context windowing (lines 63-67) *)

(** [extract_context], with [self.context_lines] as its first argument. *)
Definition extract_context (context_lines : Z) (content : list string)
    (start end_ : Z) : list string * list string :=
  let before := slice content (Z.max 0 (start - context_lines)) start in
  let after := slice content end_ (Z.min (len content) (end_ + context_lines)) in
  (before, after).

(** ** The marker parser (lines 69-109) *)

Inductive side : Type := Ours | Theirs.

#[global] Instance side_eq_dec : EqDecision side.
Proof. solve_decision. Defined.

(** The local variables of [get_conflicts]. *)
Record scan_state : Type := mkScan {
  hunks : list ConflictHunk;
  current_hunk : option ConflictHunk;
  state : option side;
  hunk_start : option Z
}.

Definition scan_init : scan_state :=
  {| hunks := []; current_hunk := None; state := None; hunk_start := None |}.

Definition set_context (h : ConflictHunk) (ba : list string * list string)
    : ConflictHunk :=
  {| header := header h; ours := ours h; theirs := theirs h;
     context_before := fst ba; context_after := snd ba;
     start_line := start_line h |}.

Definition append_ours (h : ConflictHunk) (line : string) : ConflictHunk :=
  {| header := header h; ours := ours h ++ [line]; theirs := theirs h;
     context_before := context_before h; context_after := context_after h;
     start_line := start_line h |}.

Definition append_theirs (h : ConflictHunk) (line : string) : ConflictHunk :=
  {| header := header h; ours := ours h; theirs := theirs h ++ [line];
     context_before := context_before h; context_after := context_after h;
     start_line := start_line h |}.

(** [extract_context(content, hunk_start, e)]: with [hunk_start] still
    [None] the subtraction in line 65 raises. *)
Definition context_at (k : Z) (content : list string) (hs : option Z) (e : Z)
    : outcome (list string * list string) :=
  match hs with
  | Some s => Done (extract_context k content s e)
  | None => Raised TypeError
  end.

(** One turn of the [for i, line in enumerate(content)] loop. *)
Definition scan_step (k : Z) (content : list string) (i : Z) (line : string)
    (st : scan_state) : outcome scan_state :=
  if startswith line "<<<<<<<" then
    let opened :=
      {| header := line; ours := []; theirs := [];
         context_before := []; context_after := []; start_line := Some i |} in
    match current_hunk st with
    | Some h =>
        ba ← context_at k content (hunk_start st) i;
        Done {| hunks := hunks st ++ [set_context h ba];
                current_hunk := Some opened;
                state := Some Ours; hunk_start := Some i |}
    | None =>
        Done {| hunks := hunks st; current_hunk := Some opened;
                state := Some Ours; hunk_start := Some i |}
    end
  else if startswith line "=======" && bool_decide (state st = Some Ours) then
    Done {| hunks := hunks st; current_hunk := current_hunk st;
            state := Some Theirs; hunk_start := hunk_start st |}
  else if startswith line ">>>>>>>" && bool_decide (state st = Some Theirs) then
    match current_hunk st with
    | Some h =>
        let h' := append_theirs h line in
        ba ← context_at k content (hunk_start st) (i + 1);
        Done {| hunks := hunks st ++ [set_context h' ba];
                current_hunk := None;
                state := None; hunk_start := hunk_start st |}
    | None =>
        Done {| hunks := hunks st; current_hunk := None;
                state := None; hunk_start := hunk_start st |}
    end
  else
    match current_hunk st, state st with
    | Some h, Some Ours =>
        Done {| hunks := hunks st; current_hunk := Some (append_ours h line);
                state := state st; hunk_start := hunk_start st |}
    | Some h, Some Theirs =>
        Done {| hunks := hunks st; current_hunk := Some (append_theirs h line);
                state := state st; hunk_start := hunk_start st |}
    | _, _ => Done st
    end.

(** The loop from index [i] over the remaining [lines]. *)
Fixpoint scan_loop (k : Z) (content : list string) (i : Z)
    (lines : list string) (st : scan_state) : outcome scan_state :=
  match lines with
  | [] => Done st
  | line :: rest =>
      st' ← scan_step k content i line st;
      scan_loop k content (i + 1) rest st'
  end.

(** The body of [get_conflicts] once [content] has been read. *)
Definition parse_conflicts (k : Z) (content : list string)
    : outcome (list ConflictHunk) :=
  st ← scan_loop k content 0 content scan_init;
  Done (hunks st).

(** ** The outside world and the resolver object *)

(** The colours of colorama the program uses ([Fore.*], [Style.RESET_ALL]). *)
Inductive color : Type := RED | GREEN | YELLOW | BLUE | CYAN | MAGENTA | RESET_ALL.

(** [files] holds, for each path that opens and decodes as text, the lines
    [readlines] returns; opening a path that is not in it raises [IOError].
    A file whose bytes do not decode is no part of this model: [readlines]
    then raises [UnicodeDecodeError], which line 59 does not catch.
    [stdout] holds what each [print] or [input] call wrote, in order, each
    entry with the line end the call adds; [stdin] holds the lines still to
    be typed, without their line ends; [staged] is what [index.add] has been
    given so far. *)
Record World : Type := mkWorld {
  environ : gmap string string;
  files : gmap string (list string);
  stdin : list string;
  stdout : list string;
  staged : list string
}.

(** The attributes [__init__] sets (lines 36-38). *)
Record Resolver : Type := mkResolver {
  editor : string;
  view_mode : ViewMode;
  context_lines : Z
}.

(** Lines 36-38: what [__init__] assigns before it opens the repository. *)
Definition new_resolver (w : World) : Resolver :=
  {| editor := default "nano" (environ w !! "EDITOR");
     view_mode := FILE;
     context_lines := 3 |}.

(** How [subprocess.run] ends: the process ran (and left the files as given),
    or the call raised. *)
Inductive run_result : Type :=
| Ran (files' : gmap string (list string))
| RunSubprocessError (msg : string)
| RunOSError.

(** What the program does not contain itself. *)
Record Collaborators : Type := mkCollaborators {
  (** the escape code of a colour *)
  Fore : color -> string;
  (** [Repo(Path.cwd())]: [Some e] when it raises [e] *)
  repo_init : World -> option string;
  (** the keys of the dict [repo.index.unmerged_blobs()] returns, one for
      each unmerged path (the value under a key is the list of that path's
      [(stage, Blob)] pairs), or the [GitCommandError] the call raises *)
  unmerged_paths : World -> string + list string;
  (** [repo.index.add([path])]: [None] when it returns, [Some e] when it
      raises [GitCommandError]; an exception of another class is no part of
      this model *)
  index_add : string -> World -> option string;
  (** [subprocess.run([editor, path])] *)
  run_editor : string -> string -> World -> run_result;
  (** [subprocess.run(['vimdiff', path.LOCAL, path.BASE, path.REMOTE])] *)
  run_vimdiff : string -> World -> run_result;
  (** the text of the [IOError] that opening [path] raises *)
  ioerror_text : string -> string
}.

Definition put (out : list string) (w : World) : World :=
  {| environ := environ w; files := files w; stdin := stdin w;
     stdout := stdout w ++ out; staged := staged w |}.

Definition set_files (f : gmap string (list string)) (w : World) : World :=
  {| environ := environ w; files := f; stdin := stdin w;
     stdout := stdout w; staged := staged w |}.

Definition set_stdin (inp : list string) (w : World) : World :=
  {| environ := environ w; files := files w; stdin := inp;
     stdout := stdout w; staged := staged w |}.

Definition stage (path : string) (w : World) : World :=
  {| environ := environ w; files := files w; stdin := stdin w;
     stdout := stdout w; staged := staged w ++ [path] |}.

(** [print(s)] and [print(s, end='')] as the text they write. *)
Definition line (s : string) : string := s +:+ NL.

Section Program.

Variable E : Collaborators.

(** *** [get_file_content] (lines 54-61): the lines and what was printed,
    for a path that opens and decodes, or whose opening raises [IOError] *)
Definition get_file_content (file_path : string) (w : World)
    : list string * list string :=
  match files w !! file_path with
  | Some content => (content, [])
  | None =>
      ([], [line (Fore E RED +:+ "Error reading file " +:+ file_path +:+ ": "
                  +:+ ioerror_text E file_path)])
  end.

(** *** [get_conflicts] (lines 69-109) *)
Definition get_conflicts (self : Resolver) (file_path : string) (w : World)
    : outcome (list ConflictHunk) * World :=
  let (content, printed) := get_file_content file_path w in
  (parse_conflicts (context_lines self) content, put printed w).

(** *** [launch_vimdiff] (lines 111-121) *)
Definition launch_vimdiff (file_path : string) (w : World)
    : outcome bool * World :=
  match run_vimdiff E file_path w with
  | Ran f => (Done true, set_files f w)
  | RunSubprocessError e =>
      (Done false,
       put [line (Fore E RED +:+ "Error launching vimdiff: " +:+ e)] w)
  | RunOSError => (Raised OSError, w)
  end.

(** *** [display_file_view] (lines 123-144) *)

(** The separator of the format string, U+2502, as its UTF-8 bytes. *)
Definition vbar : string :=
  String "226"%char (String "148"%char (String "130"%char EmptyString)).

Definition numbered (c : color) (i : Z) (l : string) : string :=
  Fore E c +:+ fmt_4d i +:+ vbar +:+ " " +:+ l.

(** The [for i, line in enumerate(content, 1)] loop, from index [i] with
    the flag [in_conflict]. *)
Fixpoint file_view_lines (i : Z) (in_conflict : bool) (content : list string)
    : list string :=
  match content with
  | [] => []
  | l :: rest =>
      if startswith l "<<<<<<<" then
        numbered RED i l :: file_view_lines (i + 1) true rest
      else if startswith l "=======" && in_conflict then
        numbered YELLOW i l :: file_view_lines (i + 1) in_conflict rest
      else if startswith l ">>>>>>>" && in_conflict then
        numbered GREEN i l :: file_view_lines (i + 1) false rest
      else if in_conflict then
        let c := if in_conflict then RED else GREEN in
        numbered c i l :: file_view_lines (i + 1) in_conflict rest
      else
        numbered RESET_ALL i l :: file_view_lines (i + 1) in_conflict rest
  end.

Definition display_file_view (file_path : string) (hs : list ConflictHunk)
    (w : World) : World :=
  let (content, printed) := get_file_content file_path w in
  put (printed
       ++ [line (NL +:+ Fore E BLUE +:+ "File: " +:+ file_path);
           line (Fore E BLUE +:+ rule 80)]
       ++ file_view_lines 1 false content) w.

(** *** [display_hunk] (lines 146-167): what it prints *)
Definition display_hunk (hunk : ConflictHunk) (hunk_index : Z) : list string :=
  [line (NL +:+ Fore E BLUE +:+ "Conflict " +:+ str_of_int (hunk_index + 1) +:+ ":");
   line (Fore E BLUE +:+ rule 80)]
  ++ map (fun l => line (Fore E RESET_ALL +:+ rstrip l)) (context_before hunk)
  ++ [line (Fore E RED +:+ header hunk);
      line (Fore E RED +:+ "<<<<<<< ours")]
  ++ map (fun l => line (Fore E RED +:+ rstrip l)) (ours hunk)
  ++ [line (Fore E YELLOW +:+ "=======")]
  ++ map (fun l => line (Fore E GREEN +:+ rstrip l)) (theirs hunk)
  ++ [line (Fore E GREEN +:+ ">>>>>>> theirs")]
  ++ map (fun l => line (Fore E RESET_ALL +:+ rstrip l)) (context_after hunk).

(** [for idx, hunk in enumerate(hunks): self.display_hunk(hunk, idx)] *)
Fixpoint display_hunks (idx : Z) (hs : list ConflictHunk) : list string :=
  match hs with
  | [] => []
  | h :: rest => display_hunk h idx ++ display_hunks (idx + 1) rest
  end.

(** *** [prompt_user] (lines 169-190) *)
Definition options (self : Resolver) : list (string * string) :=
  [("o", "Keep 'ours'");
   ("t", "Keep 'theirs'");
   ("e", "Edit manually");
   ("v", "Open in vimdiff");
   ("m", "Toggle view mode (current: " +:+ ViewMode_value (view_mode self) +:+ ")");
   ("c", "Show more context");
   ("s", "Skip this hunk");
   ("q", "Quit")].

Definition in_options (self : Resolver) (choice : string) : bool :=
  bool_decide (choice ∈ map fst (options self)).

Definition prompt_text : string := "Choose an option [o/t/e/v/m/c/s/q]: ".

(** The [while True] loop of lines 186-190 over the lines still to be
    typed; [input] raises [EOFError] when there is none. *)
Fixpoint read_choice (self : Resolver) (inp : list string)
    : outcome string * list string * list string :=
  match inp with
  | [] => (Raised EOFError, [], [prompt_text])
  | raw :: rest =>
      let choice := lower (strip raw) in
      if in_options self choice then (Done choice, rest, [prompt_text])
      else
        let '(r, rest', printed) := read_choice self rest in
        (r, rest',
         [prompt_text; line (Fore E RED +:+ "Invalid option. Please try again.")]
         ++ printed)
  end.

(** Lines 182-184. *)
Definition menu (self : Resolver) : list string :=
  line (NL +:+ "Options:")
  :: map (fun kv => line (Fore E CYAN +:+ fst kv +:+ Fore E RESET_ALL +:+ ") "
                           +:+ snd kv)) (options self).

Definition prompt_user (self : Resolver) (w : World) : outcome string * World :=
  let '(r, rest, printed) := read_choice self (stdin w) in
  (r, set_stdin rest (put (menu self ++ printed) w)).

(** *** [process_file] (lines 192-231) *)

(** A method called as [self.m(file_path, hunk, index)]. *)
Definition method : Type :=
  string -> ConflictHunk -> Z -> Resolver -> World
  -> outcome unit * Resolver * World.

Inductive flow : Type := Continue | Break.

Section Controller.

(** What looking up [self.resolve_hunk] finds: [None] when the object
    has no such attribute. *)
Variable resolve_hunk_attr : option method.

(** [self.resolve_hunk(file_path, hunks[0], 0)] (line 230): the
    attribute is looked up before the arguments are evaluated. *)
Definition call_resolve_hunk (file_path : string) (hs : list ConflictHunk)
    (self : Resolver) (w : World) : outcome unit * Resolver * World :=
  match resolve_hunk_attr with
  | None =>
      (Raised (AttributeError "GitConflictResolver" "resolve_hunk"), self, w)
  | Some m =>
      match hs with
      | h :: _ => m file_path h 0 self w
      | [] => (Raised IndexError, self, w)
      end
  end.

(** The [if choice == ...] chain of lines 209-231. *)
Definition dispatch (file_path : string) (hs : list ConflictHunk)
    (choice : string) (self : Resolver) (w : World)
    : outcome flow * Resolver * World :=
  if String.eqb choice "q" then
    (SysExit 0, self, put [line (Fore E MAGENTA +:+ "Quitting script.")] w)
  else if String.eqb choice "m" then
    let self' :=
      {| editor := editor self;
         view_mode := match view_mode self with FILE => HUNK | HUNK => FILE end;
         context_lines := context_lines self |} in
    (Done Continue, self',
     put [line (Fore E CYAN +:+ "Switched to "
                +:+ ViewMode_value (view_mode self') +:+ " view.")] w)
  else if String.eqb choice "c" then
    let self' :=
      {| editor := editor self; view_mode := view_mode self;
         context_lines := Z.min (context_lines self + 3) 10 |} in
    (Done Continue, self',
     put [line (Fore E CYAN +:+ "Showing "
                +:+ str_of_int (context_lines self')
                +:+ " lines of context.")] w)
  else if String.eqb choice "v" then
    let (r, w') := launch_vimdiff file_path w in
    (_ ← r; Done Continue, self, w')
  else if String.eqb choice "e" then
    match run_editor E (editor self) file_path w with
    | Ran f =>
        let w1 := set_files f w in
        match index_add E file_path w1 with
        | None =>
            (Done Break, self,
             put [line (Fore E CYAN +:+ "Manually edited and staged the file.")]
                 (stage file_path w1))
        | Some e =>
            (Done Continue, self,
             put [line (Fore E RED +:+ "Error staging file: " +:+ e)] w1)
        end
    | RunSubprocessError _ => (Raised SubprocessError, self, w)
    | RunOSError => (Raised OSError, self, w)
    end
  else
    let '(r, self', w') := call_resolve_hunk file_path hs self w in
    (_ ← r; Done Break, self', w').

(** Lines 201-205. *)
Definition render (file_path : string) (hs : list ConflictHunk)
    (self : Resolver) (w : World) : World :=
  match view_mode self with
  | FILE => display_file_view file_path hs w
  | HUNK => put (display_hunks 0 hs) w
  end.

(** The [while True] loop of lines 200-231, for at most [fuel] turns. *)
Fixpoint controller_loop (fuel : nat) (file_path : string)
    (hs : list ConflictHunk) (self : Resolver) (w : World)
    : outcome unit * Resolver * World :=
  match fuel with
  | O => (OutOfFuel, self, w)
  | S fuel' =>
      let w1 := render file_path hs self w in
      let (r, w2) := prompt_user self w1 in
      match r with
      | Done choice =>
          match dispatch file_path hs choice self w2 with
          | (Done Continue, self', w3) =>
              controller_loop fuel' file_path hs self' w3
          | (Done Break, self', w3) => (Done tt, self', w3)
          | (SysExit c, self', w3) => (SysExit c, self', w3)
          | (Raised e, self', w3) => (Raised e, self', w3)
          | (OutOfFuel, self', w3) => (OutOfFuel, self', w3)
          end
      | SysExit c => (SysExit c, self, w2)
      | Raised e => (Raised e, self, w2)
      | OutOfFuel => (OutOfFuel, self, w2)
      end
  end.

(** Every turn of the loop reads at least one line, so one turn more
    than there are lines to read is fuel enough. *)
Definition process_file_with (file_path : string) (self : Resolver)
    (w : World) : outcome unit * Resolver * World :=
  let (r, w1) := get_conflicts self file_path w in
  match r with
  | Done [] =>
      (Done tt, self,
       put [line (Fore E YELLOW +:+ "No conflict hunks found in this file.")] w1)
  | Done hs => controller_loop (S (length (stdin w1))) file_path hs self w1
  | SysExit c => (SysExit c, self, w1)
  | Raised e => (Raised e, self, w1)
  | OutOfFuel => (OutOfFuel, self, w1)
  end.

End Controller.

(** The body of [class GitConflictResolver] (lines 32-231) defines
    [__init__], [get_conflicted_files], [get_file_content],
    [extract_context], [get_conflicts], [launch_vimdiff],
    [display_file_view], [display_hunk], [prompt_user] and [process_file],
    and [__init__] sets [editor], [view_mode], [context_lines] and [repo]:
    nothing in the file defines or assigns [resolve_hunk]. *)
Definition resolve_hunk : option method := None.

Definition process_file : string -> Resolver -> World
    -> outcome unit * Resolver * World :=
  process_file_with resolve_hunk.

(** *** [__init__] (lines 35-43) *)
Definition init (w : World) : outcome Resolver * World :=
  let self := new_resolver w in
  match repo_init E w with
  | None => (Done self, w)
  | Some e =>
      (SysExit 1,
       put [line (Fore E RED +:+ "Error initializing Git repository: " +:+ e)] w)
  end.

(** *** [get_conflicted_files] (lines 45-52) *)

(** [item.a_path] (line 48) for the value [item] the dict holds under
    [key]: that value is a [list], and a list has no attribute [a_path]. *)
Definition a_path_of_value (key : string) : outcome string :=
  Raised (AttributeError "list" "a_path").

(** The list comprehension of line 48, over the values of the dict. *)
Fixpoint collect_a_paths (keys : list string) : outcome (list string) :=
  match keys with
  | [] => Done []
  | key :: rest =>
      path ← a_path_of_value key;
      paths ← collect_a_paths rest;
      Done (path :: paths)
  end.

(** [list(set(conflicted))] (line 49) keeps one of each path; the order of
    a Python set is not fixed, and only the empty list ever gets here.  The
    [AttributeError] of line 48 is no [GitCommandError]: line 50 lets it
    pass. *)
Definition get_conflicted_files (w : World) : outcome (list string) * World :=
  match unmerged_paths E w with
  | inr keys =>
      (conflicted ← collect_a_paths keys; Done (remove_dups conflicted), w)
  | inl e =>
      (Done [],
       put [line (Fore E RED +:+ "Error getting conflicted files: " +:+ e)] w)
  end.

(** *** [main] (lines 233-257) *)

(** [for file_path in conflicted_files: resolver.process_file(file_path)] *)
Fixpoint process_files (paths : list string) (self : Resolver) (w : World)
    : outcome unit * Resolver * World :=
  match paths with
  | [] => (Done tt, self, w)
  | file_path :: rest =>
      match process_file file_path self w with
      | (Done _, self', w') => process_files rest self' w'
      | other => other
      end
  end.

(** Lines 246-257. *)
Definition regular_operation (w : World) : outcome unit * World :=
  match init w with
  | (Done resolver, w1) =>
      match get_conflicted_files w1 with
      | (Done [], w2) =>
          (SysExit 0,
           put [line (Fore E GREEN +:+ "No conflicted files found. Exiting.")] w2)
      | (Done conflicted_files, w2) =>
          match process_files conflicted_files resolver w2 with
          | (Done _, _, w3) =>
              (Done tt,
               put [line (Fore E GREEN +:+ NL +:+ "All conflicts processed.")] w3)
          | (SysExit c, _, w3) => (SysExit c, w3)
          | (Raised e, _, w3) => (Raised e, w3)
          | (OutOfFuel, _, w3) => (OutOfFuel, w3)
          end
      | (SysExit c, w2) => (SysExit c, w2)
      | (Raised e, w2) => (Raised e, w2)
      | (OutOfFuel, w2) => (OutOfFuel, w2)
      end
  | (SysExit c, w1) => (SysExit c, w1)
  | (Raised e, w1) => (Raised e, w1)
  | (OutOfFuel, w1) => (OutOfFuel, w1)
  end.

(** The truth value of what [os.environ.get] returns. *)
Definition truthy (v : option string) : bool :=
  match v with
  | Some s => negb (String.eqb s "")
  | None => false
  end.

Definition main (argv : list string) (w : World) : outcome unit * World :=
  let mergetool_mode :=
    (1 <? len argv) && bool_decide (argv !! 1%nat = Some "--mergetool") in
  let local := environ w !! "LOCAL" in
  let base := environ w !! "BASE" in
  let remote := environ w !! "REMOTE" in
  let merged := environ w !! "MERGED" in
  if mergetool_mode
     && (truthy local && truthy base && truthy remote && truthy merged)
  then
    match init w with
    | (Done resolver, w1) =>
        match process_file (default "" merged) resolver w1 with
        | (Done _, _, w2) => (SysExit 0, w2)
        | (SysExit c, _, w2) => (SysExit c, w2)
        | (Raised e, _, w2) => (Raised e, w2)
        | (OutOfFuel, _, w2) => (OutOfFuel, w2)
        end
    | (SysExit c, w1) => (SysExit c, w1)
    | (Raised e, w1) => (Raised e, w1)
    | (OutOfFuel, w1) => (OutOfFuel, w1)
    end
  else regular_operation w.

End Program.

(** ** Inputs used to run the program *)

Definition ln (s : string) : string := s +:+ NL.

(** The file of the parsing scenario. *)
Definition scenario_file : list string :=
  [ln "a"; ln "<<<<<<< HEAD"; ln "x"; ln "======="; ln "y";
   ln ">>>>>>> branch"; ln "b"].

Definition scenario_hunk : ConflictHunk :=
  {| header := ln "<<<<<<< HEAD"; ours := [ln "x"];
     theirs := [ln "y"; ln ">>>>>>> branch"];
     context_before := [ln "a"]; context_after := [ln "b"];
     start_line := Some 1 |}.

(** A file with five lines above its hunk. *)
Definition deep_file : list string :=
  [ln "1"; ln "2"; ln "3"; ln "4"; ln "5"; ln "<<<<<<< HEAD"; ln "x";
   ln "======="; ln "y"; ln ">>>>>>> branch"; ln "b"].

(** Its hunk with the context of a window of size [3] and of size [6]. *)
Definition deep_hunk (before : list string) : ConflictHunk :=
  {| header := ln "<<<<<<< HEAD"; ours := [ln "x"];
     theirs := [ln "y"; ln ">>>>>>> branch"];
     context_before := before; context_after := [ln "b"];
     start_line := Some 5 |}.

Definition deep_hunk_3 : ConflictHunk := deep_hunk [ln "3"; ln "4"; ln "5"].

Definition deep_hunk_6 : ConflictHunk :=
  deep_hunk [ln "1"; ln "2"; ln "3"; ln "4"; ln "5"].

(** The escape codes colorama gives the colours. *)
Definition ESC : string := String "027"%char EmptyString.

Definition ansi (c : color) : string :=
  match c with
  | RED => ESC +:+ "[31m"
  | GREEN => ESC +:+ "[32m"
  | YELLOW => ESC +:+ "[33m"
  | BLUE => ESC +:+ "[34m"
  | MAGENTA => ESC +:+ "[35m"
  | CYAN => ESC +:+ "[36m"
  | RESET_ALL => ESC +:+ "[0m"
  end.

(** Collaborators that always succeed: the repository opens, the index
    has [paths] unmerged and accepts every path, and the editor and vimdiff
    leave every file as it is. *)
Definition calm (paths : list string) : Collaborators :=
  {| Fore := ansi;
     repo_init := fun _ => None;
     unmerged_paths := fun _ => inr paths;
     index_add := fun _ _ => None;
     run_editor := fun _ _ w => Ran (files w);
     run_vimdiff := fun _ w => Ran (files w);
     ioerror_text := fun _ => "[Errno 2] No such file or directory" |}.

(** A terminal session: the files on disk and the lines the user types. *)
Definition session (fs : gmap string (list string)) (typed : list string)
    : World :=
  {| environ := ∅; files := fs; stdin := typed; stdout := []; staged := [] |}.

(** ** Definitions the properties are stated with *)

(** What holds of the local variables of [get_conflicts] between two turns
    of its loop: a hunk is open exactly when a side is being read, and an
    open hunk has its start recorded. *)
Definition scan_inv (st : scan_state) : Prop :=
  (state st = None <-> current_hunk st = None)
  /\ (is_Some (current_hunk st) -> is_Some (hunk_start st)).

Ltac scan_cases st :=
  destruct st as [hs [cur|] [[|]|] [start|]];
  unfold scan_inv in *; cbn in *.

(** The lines of a run's output that report the window size. *)
Definition showing_lines (out : list string) : list string :=
  List.filter (fun s => startswith s (ansi CYAN +:+ "Showing")) out.

(** The view as the specification words it: the theirs lines without the
    end-marker line that closes them. *)
Definition hunk_view_as_specified (E : Collaborators) (hunk : ConflictHunk)
    : list string :=
  map (fun l => line (Fore E RESET_ALL +:+ rstrip l)) (context_before hunk)
  ++ [line (Fore E RED +:+ header hunk); line (Fore E RED +:+ "<<<<<<< ours")]
  ++ map (fun l => line (Fore E RED +:+ rstrip l)) (ours hunk)
  ++ [line (Fore E YELLOW +:+ "=======")]
  ++ map (fun l => line (Fore E GREEN +:+ rstrip l)) (removelast (theirs hunk))
  ++ [line (Fore E GREEN +:+ ">>>>>>> theirs")]
  ++ map (fun l => line (Fore E RESET_ALL +:+ rstrip l)) (context_after hunk).

(** The three tests of the scan on the head of a line. *)
Definition is_start (l : string) : bool := startswith l "<<<<<<<".
Definition is_separator (l : string) : bool := startswith l "=======".
Definition is_end (l : string) : bool := startswith l ">>>>>>>".


(** Line spans [(s, e)] that follow one another between [lo] and [hi]:
    each is not empty and ends before the next begins. *)
Fixpoint ordered_spans (lo : Z) (spans : list (Z * Z)) (hi : Z) : Prop :=
  match spans with
  | [] => lo <= hi
  | (s, e) :: rest => lo <= s /\ s < e /\ ordered_spans e rest hi
  end.

(** The hunk [h] sits on the span [(s, e)] of [content]: its header is line
    [s], a start-marker line, and its context is the window around the span. *)
Definition hunk_at (k : Z) (content : list string) (h : ConflictHunk)
    (span : Z * Z) : Prop :=
  start_line h = Some span.1
  /\ content !! Z.to_nat span.1 = Some (header h)
  /\ is_start (header h) = true
  /\ (context_before h, context_after h)
     = extract_context k content span.1 span.2.

(** What the scan keeps true of the hunks it has closed and of the one it
    has open, after the lines [done]. *)
Definition spans_inv (k : Z) (content done : list string) (st : scan_state)
    : Prop :=
  exists spans,
    Forall2 (hunk_at k content) (hunks st) spans
    /\ match current_hunk st with
       | Some h =>
           exists s, hunk_start st = Some s /\ start_line h = Some s
             /\ 0 <= s < len done
             /\ content !! Z.to_nat s = Some (header h)
             /\ is_start (header h) = true
             /\ ordered_spans 0 spans s
       | None => ordered_spans 0 spans (len done)
       end.

Ltac scan_simpl :=
  cbn [hunks current_hunk state hunk_start header start_line ours theirs
       context_before context_after set_context append_theirs append_ours
       fst snd].

Ltac open_hunk_facts :=
  repeat split;
  first [ assumption | lia | unfold len; lia ].

(** The local variables of [get_conflicts] while a hunk opened at line [s]
    under the header [hd] is being read on the side [sd]. *)
Definition open_at (hs : list ConflictHunk) (hd : string) (s : Z)
    (os ts : list string) (sd : side) : scan_state :=
  {| hunks := hs;
     current_hunk :=
       Some {| header := hd; ours := os; theirs := ts;
               context_before := []; context_after := [];
               start_line := Some s |};
     state := Some sd; hunk_start := Some s |}.

(** The lines of a parsed hunk come from the file, and the markers that end
    a side are not among them: no ours line begins with the start or the
    separator token, no theirs line with the start token, and only the last
    theirs line can begin with the end token. *)
Definition sides_clean (content : list string) (h : ConflictHunk) : Prop :=
  Forall (fun l => l ∈ content /\ is_start l = false /\ is_separator l = false)
         (ours h)
  /\ Forall (fun l => l ∈ content /\ is_start l = false) (theirs h)
  /\ Forall (fun l => is_end l = false) (removelast (theirs h)).

(** What the scan keeps true of the sides of its hunks. *)
Definition sides_inv (content : list string) (st : scan_state) : Prop :=
  Forall (sides_clean content) (hunks st)
  /\ match current_hunk st with
     | Some h =>
         Forall (fun l => l ∈ content /\ is_start l = false
                          /\ is_separator l = false) (ours h)
         /\ Forall (fun l => l ∈ content /\ is_start l = false) (theirs h)
         /\ Forall (fun l => is_end l = false) (theirs h)
     | None => True
     end.

(** A path the scan finds no start marker under: the file cannot be read,
    or none of its lines begins with the start token. *)
Definition marker_free (fs : gmap string (list string)) (p : string) : Prop :=
  match fs !! p with
  | Some content => Forall (fun l => is_start l = false) content
  | None => True
  end.

(** What [all([...])] in line 241 rejects: a variable that is not set, or
    set to the empty string. *)
Definition unset_or_empty (v : option string) : Prop :=
  v = None \/ v = Some "".

(** A typed line that asks for neither the editor nor vimdiff. *)
Definition leaves_files (raw : string) : Prop :=
  lower (strip raw) <> "e" /\ lower (strip raw) <> "v".

(** What the prompt prints for the lines it rejects, then for the line it
    takes. *)
Definition rejected (E : Collaborators) (bad : list string) : list string :=
  flat_map (fun _ => [prompt_text;
                      line (Fore E RED +:+ "Invalid option. Please try again.")])
           bad
  ++ [prompt_text].

(** A process that leaves every file as it is. *)
Definition unchanged (w : World) : run_result := Ran (files w).

(** Collaborators with given answers: of opening the repository, of the
    index listing, of the editor and vimdiff processes, and of [index.add]. *)
Definition scripted (init_error : option string)
    (listing : string + list string) (ed vd : World -> run_result)
    (add_error : option string) : Collaborators :=
  {| Fore := ansi;
     repo_init := fun _ => init_error;
     unmerged_paths := fun _ => listing;
     index_add := fun _ _ => add_error;
     run_editor := fun _ _ w => ed w;
     run_vimdiff := fun _ w => vd w;
     ioerror_text := fun _ => "[Errno 2] No such file or directory" |}.

(** A hunk without its context, and the scan state without the context of
    its hunks. *)
Definition bare (h : ConflictHunk) : ConflictHunk :=
  {| header := header h; ours := ours h; theirs := theirs h;
     context_before := []; context_after := [];
     start_line := start_line h |}.

Definition bare_state (st : scan_state) : scan_state :=
  {| hunks := map bare (hunks st);
     current_hunk := option_map bare (current_hunk st);
     state := state st; hunk_start := hunk_start st |}.

(** Two hunks that differ in their context at most. *)
Definition same_sides (h h' : ConflictHunk) : Prop :=
  header h = header h' /\ ours h = ours h' /\ theirs h = theirs h'
  /\ start_line h = start_line h'.

(** Two outcomes of the scan that differ in the context of the hunks at
    most. *)
Definition same_scan (a b : outcome scan_state) : Prop :=
  match a, b with
  | Done x, Done y => bare_state x = bare_state y
  | Raised e, Raised e' => e = e'
  | _, _ => False
  end.

(** The colours the file view prints a line in. *)
Definition view_colours : list color := [RED; YELLOW; GREEN; RESET_ALL].

(** The keys of the menu of [prompt_user], in its order. *)
Definition option_keys : list string :=
  ["o"; "t"; "e"; "v"; "m"; "c"; "s"; "q"].

(** A typed line after which the loop of [process_file] prompts again with
    no process run in between: it is no command, or it is [m] or [c]. *)
Definition asks_again (raw : string) : Prop :=
  lower (strip raw) ∉ option_keys
  \/ lower (strip raw) = "m" \/ lower (strip raw) = "c".

(** One well-formed conflict block between lines without start marker: the
    input of the single-hunk scenarios. *)
Definition well_formed_block (pre : list string) (start : string)
    (os : list string) (sep : string) (ts : list string) (end_ : string)
    (post : list string) : Prop :=
  Forall (fun l => is_start l = false) pre
  /\ is_start start = true
  /\ Forall (fun l => is_start l = false /\ is_separator l = false) os
  /\ is_separator sep = true
  /\ Forall (fun l => is_start l = false /\ is_end l = false) ts
  /\ is_end end_ = true
  /\ Forall (fun l => is_start l = false) post.

(** The hunk the parser makes of such a block at the size [k]. *)
Definition block_hunk (k : Z) (pre : list string) (start : string)
    (os : list string) (sep : string) (ts : list string) (end_ : string)
    (post : list string) : ConflictHunk :=
  let content := pre ++ [start] ++ os ++ [sep] ++ ts ++ [end_] ++ post in
  let s := len pre in
  let e := len pre + 1 + len os + 1 + len ts + 1 in
  {| header := start; ours := os; theirs := ts ++ [end_];
     context_before := fst (extract_context k content s e);
     context_after := snd (extract_context k content s e);
     start_line := Some s |}.

(** A line that begins with none of the three tokens. *)
Definition is_body (l : string) : Prop :=
  is_start l = false /\ is_separator l = false /\ is_end l = false.

(** The entries of the file view for the lines [ls], numbered from [i], all
    in the colour [c]. *)
Fixpoint coloured (E : Collaborators) (c : color) (i : Z) (ls : list string)
    : list string :=
  match ls with
  | [] => []
  | l :: rest => numbered E c i l :: coloured E c (i + 1) rest
  end.

(** What [process_file] prints for a path without hunk: the error of a
    failed read, if any, then that no hunk was found. *)
Definition no_hunk_report (E : Collaborators) (fs : gmap string (list string))
    (p : string) : list string :=
  match fs !! p with
  | Some _ => []
  | None => [line (Fore E RED +:+ "Error reading file " +:+ p +:+ ": "
                   +:+ ioerror_text E p)]
  end
  ++ [line (Fore E YELLOW +:+ "No conflict hunks found in this file.")].

(** A session in which git runs the program as a merge tool on [merged]:
    the four variables are set. *)
Definition mergetool_session (fs : gmap string (list string))
    (merged : string) (typed : list string) : World :=
  {| environ := {[ "LOCAL" := merged +:+ ".LOCAL";
                   "BASE" := merged +:+ ".BASE";
                   "REMOTE" := merged +:+ ".REMOTE";
                   "MERGED" := merged ]};
     files := fs; stdin := typed; stdout := []; staged := [] |}.

(** The command line of that run. *)
Definition mergetool_argv : list string :=
  ["git-simple-merge.py"; "--mergetool"].

(** The hunk with the header [hd] and the sides [os] and [ts] on the span
    [(s, e)] of [content], at the size [k]. *)
Definition hunk_on (k : Z) (content : list string) (hd : string)
    (os ts : list string) (s e : Z) : ConflictHunk :=
  {| header := hd; ours := os; theirs := ts;
     context_before := fst (extract_context k content s e);
     context_after := snd (extract_context k content s e);
     start_line := Some s |}.

(** * Properties *)

(** ** Slices *)

Lemma slice_in_range {A : Type} (l : list A) (lo hi : Z) :
  0 <= lo <= hi -> hi <= len l ->
  slice l lo hi = take (Z.to_nat (hi - lo)) (drop (Z.to_nat lo) l).
Proof.
  intros Hlo Hhi. unfold slice, slice_bound, len in *.
  destruct (Z.ltb_spec lo 0); [lia|].
  destruct (Z.ltb_spec hi 0); [lia|].
  rewrite !Z.min_l by lia. reflexivity.
Qed.

Lemma before_window (content : list string) (s e k : Z) :
  0 <= s <= len content -> 0 <= k ->
  fst (extract_context k content s e)
  = drop (Z.to_nat (s - Z.min k s)) (take (Z.to_nat s) content).
Proof.
  intros Hs Hk. unfold extract_context. cbn [fst].
  rewrite slice_in_range by lia.
  rewrite take_drop_commute. f_equal; [lia|]. f_equal. lia.
Qed.

Lemma after_window (content : list string) (s e k : Z) :
  0 <= e <= len content -> 0 <= k ->
  snd (extract_context k content s e)
  = take (Z.to_nat k) (drop (Z.to_nat e) content).
Proof.
  intros He Hk. unfold extract_context. cbn [snd].
  rewrite slice_in_range by lia.
  destruct (Z.le_ge_cases (e + k) (len content)) as [Hle|Hge].
  - rewrite Z.min_r by lia. f_equal. lia.
  - rewrite Z.min_l by lia.
    rewrite !take_ge; [reflexivity| |]; rewrite length_drop; unfold len in *; lia.
Qed.

(** ** The context window *)

(** C7: for a hunk span [s, e) of the content and a size [k >= 0],
    [extract_context] returns the [min k s] lines that end at line [s] and the
    [min k (len - e)] lines that start at line [e]; the windows at size
    [k + 3] extend those at size [k] (the earlier [before] is a suffix of the
    later one, the earlier [after] a prefix), and never hold more lines than
    the file has before line [s] or from line [e] on. *)
Theorem extract_context_window_monotone
    (content : list string) (s e k : Z) :
  0 <= s <= e -> e <= len content -> 0 <= k ->
  let w := extract_context k content s e in
  let w3 := extract_context (k + 3) content s e in
  fst w = drop (Z.to_nat (s - Z.min k s)) (take (Z.to_nat s) content)
  /\ snd w = take (Z.to_nat k) (drop (Z.to_nat e) content)
  /\ len (fst w) = Z.min k s /\ len (snd w) = Z.min k (len content - e)
  /\ len (fst w) <= k /\ len (snd w) <= k
  /\ fst w `suffix_of` fst w3 /\ snd w `prefix_of` snd w3
  /\ len (fst w3) <= s /\ len (snd w3) <= len content - e.
Proof.
  intros Hs He Hk w w3. subst w w3.
  rewrite !before_window, !after_window by lia.
  assert (Hlb : forall j, 0 <= j ->
    len (drop (Z.to_nat (s - Z.min j s)) (take (Z.to_nat s) content))
    = Z.min j s).
  { intros j Hj. unfold len in *. rewrite length_drop, length_take. lia. }
  assert (Hla : forall j, 0 <= j ->
    len (take (Z.to_nat j) (drop (Z.to_nat e) content))
    = Z.min j (len content - e)).
  { intros j Hj. unfold len in *. rewrite length_take, length_drop. lia. }
  repeat split; try reflexivity.
  - apply Hlb; lia.
  - apply Hla; lia.
  - rewrite Hlb by lia. lia.
  - rewrite Hla by lia. lia.
  - set (X := take (Z.to_nat s) content).
    replace (Z.to_nat (s - Z.min k s))
      with (Z.to_nat (s - Z.min (k + 3) s)
            + (Z.to_nat (s - Z.min k s) - Z.to_nat (s - Z.min (k + 3) s)))%nat
      by lia.
    rewrite <- drop_drop. apply suffix_drop.
  - set (X := drop (Z.to_nat e) content).
    replace (Z.to_nat k) with (Z.to_nat k `min` Z.to_nat (k + 3))%nat by lia.
    rewrite <- take_take. apply prefix_take.
  - rewrite Hlb by lia. lia.
  - rewrite Hla by lia. lia.
Qed.

Lemma extract_context_window_monotone_witness :
  let content := [ln "1"; ln "2"; ln "3"; ln "4"; ln "5"; ln "<"; ln ">"; ln "8"] in
  let w := extract_context 3 content 5 7 in
  let w3 := extract_context 6 content 5 7 in
  fst w = [ln "3"; ln "4"; ln "5"] /\ fst w3 = [ln "1"; ln "2"; ln "3"; ln "4"; ln "5"]
  /\ snd w = [ln "8"] /\ fst w `suffix_of` fst w3 /\ len (fst w3) <= 5.
Proof.
  pose proof (extract_context_window_monotone
    [ln "1"; ln "2"; ln "3"; ln "4"; ln "5"; ln "<"; ln ">"; ln "8"] 5 7 3
    ltac:(lia) ltac:(unfold len; simpl; lia) ltac:(lia)) as H.
  cbv zeta in H. destruct H as (_ & _ & _ & _ & _ & _ & Hsuf & _ & Hle & _).
  cbv zeta. repeat split; try reflexivity; assumption.
Defined.

(** ** The marker parser *)

Lemma scan_init_inv : scan_inv scan_init.
Proof. split; [split; reflexivity | intros [h Hh]; discriminate]. Qed.

Lemma scan_step_inv (k : Z) (content : list string) (i : Z) (l : string)
    (st : scan_state) :
  scan_inv st ->
  exists st', scan_step k content i l st = Done st' /\ scan_inv st'
              /\ hunks st `prefix_of` hunks st'.
Proof.
  intros [Hiff Hstart]. unfold scan_step.
  destruct (startswith l "<<<<<<<").
  { scan_cases st;
      try (eexists; split; [reflexivity|]; cbn;
           split; [split; [split; intros; discriminate | eauto]
                  | first [ reflexivity | apply prefix_app_r; reflexivity ]]).
    all: exfalso; destruct Hstart as [? ?]; eauto; discriminate. }
  destruct (startswith l "=======");
    destruct (startswith l ">>>>>>>"); cbn [andb].
  all: scan_cases st;
    repeat case_bool_decide; try congruence;
    try (exfalso; destruct Hiff as [H1 H2];
         first [ specialize (H1 eq_refl) | specialize (H2 eq_refl) ];
         discriminate);
    try (exfalso; destruct Hstart as [? ?]; eauto; discriminate).
  all: eexists; split; [reflexivity|]; cbn;
    split; [split; [split; intros; first [reflexivity | discriminate] | eauto]
           | first [ reflexivity | apply prefix_app_r; reflexivity ]].
Qed.

Lemma scan_loop_inv (k : Z) (content lines : list string) :
  forall (i : Z) (st : scan_state),
  scan_inv st ->
  exists st', scan_loop k content i lines st = Done st' /\ scan_inv st'
              /\ hunks st `prefix_of` hunks st'.
Proof.
  induction lines as [|l rest IH]; intros i st Hinv; cbn [scan_loop].
  - exists st. repeat split; try apply Hinv. reflexivity.
  - destruct (scan_step_inv k content i l st Hinv) as (st1 & Hstep & Hinv1 & Hpre1).
    rewrite Hstep. cbn.
    destruct (IH (i + 1) st1 Hinv1) as (st2 & Hloop & Hinv2 & Hpre2).
    exists st2. repeat split; try apply Hinv2; [assumption|].
    etransitivity; eassumption.
Qed.

Lemma scan_loop_app (k : Z) (content a b : list string) :
  forall (i : Z) (st : scan_state),
  scan_loop k content i (a ++ b) st
  = st' ← scan_loop k content i a st; scan_loop k content (i + len a) b st'.
Proof.
  induction a as [|l a IH]; intros i st; cbn [scan_loop app].
  - cbn. f_equal. unfold len. cbn. lia.
  - destruct (scan_step k content i l st) as [st1| | |]; cbn; try reflexivity.
    rewrite IH. unfold len. cbn [length].
    replace (i + 1 + Z.of_nat (length a)) with (i + Z.of_nat (S (length a))) by lia.
    reflexivity.
Qed.

(** The parser always returns: the [TypeError] of an unset [hunk_start]
    cannot happen. *)
Lemma parse_conflicts_total (k : Z) (content : list string) :
  exists hs, parse_conflicts k content = Done hs.
Proof.
  unfold parse_conflicts.
  destruct (scan_loop_inv k content content 0 scan_init scan_init_inv)
    as (st & Hloop & _). rewrite Hloop. cbn. eauto.
Qed.

(** A line starts with at most one of two tokens that differ in their
    first character. *)
Lemma startswith_other_head (l : string) (c d : ascii) (p q : string) :
  startswith l (String c p) = true -> c <> d ->
  startswith l (String d q) = false.
Proof.
  unfold startswith. destruct l as [|a l]; [discriminate|].
  cbn [String.prefix]. intros H Hne.
  destruct (ascii_dec c a) as [->|]; [|discriminate].
  destruct (ascii_dec d a) as [->|]; [congruence | reflexivity].
Qed.

(** C5: at the initial context size the parser turns the seven-line
    scenario file into exactly one hunk: ours ["x\n"], theirs
    ["y\n", ">>>>>>> branch\n"], context before ["a\n"], context after
    ["b\n"]. *)
Theorem get_conflicts_scenario (E : Collaborators) (p : string) (w : World) :
  files w !! p = Some scenario_file ->
  context_lines (new_resolver w) = 3
  /\ get_conflicts E (new_resolver w) p w = (Done [scenario_hunk], put [] w)
  /\ ours scenario_hunk = [ln "x"]
  /\ theirs scenario_hunk = [ln "y"; ln ">>>>>>> branch"]
  /\ context_before scenario_hunk = [ln "a"]
  /\ context_after scenario_hunk = [ln "b"].
Proof.
  intros Hfile. repeat split.
  unfold get_conflicts, get_file_content. rewrite Hfile. reflexivity.
Qed.

Lemma get_conflicts_scenario_witness :
  let w := session {[ "f.txt" := scenario_file ]} [] in
  get_conflicts (calm ["f.txt"]) (new_resolver w) "f.txt" w
  = (Done [scenario_hunk], put [] w).
Proof.
  intros w.
  exact (proj1 (proj2 (get_conflicts_scenario (calm ["f.txt"]) "f.txt" w eq_refl))).
Defined.

(** C9: a line that begins with [=======] and is read while the parser
    reads the theirs side is appended as it is to the theirs lines of the
    open hunk, and the state stays; read on the ours side it switches the
    state to theirs and enters neither side; read outside a hunk it changes
    nothing. *)
Theorem separator_by_state (k : Z) (content pre : list string) (l : string)
    (st : scan_state) :
  scan_loop k content 0 pre scan_init = Done st ->
  startswith l "=======" = true ->
  match state st with
  | Some Theirs =>
      exists h, current_hunk st = Some h
      /\ scan_step k content (len pre) l st
         = Done {| hunks := hunks st;
                   current_hunk := Some (append_theirs h l);
                   state := Some Theirs; hunk_start := hunk_start st |}
      /\ theirs (append_theirs h l) = theirs h ++ [l]
      /\ ours (append_theirs h l) = ours h
  | Some Ours =>
      scan_step k content (len pre) l st
      = Done {| hunks := hunks st; current_hunk := current_hunk st;
                state := Some Theirs; hunk_start := hunk_start st |}
  | None => scan_step k content (len pre) l st = Done st
  end.
Proof.
  intros Hscan Hsep.
  destruct (scan_loop_inv k content pre 0 scan_init scan_init_inv)
    as (st' & Hloop & [Hiff Hstart] & _).
  rewrite Hscan in Hloop. assert (st' = st) as -> by congruence. clear Hloop.
  assert (Hopen : startswith l "<<<<<<<" = false)
    by (eapply startswith_other_head; [eassumption | discriminate]).
  assert (Hclose : startswith l ">>>>>>>" = false)
    by (eapply startswith_other_head; [eassumption | discriminate]).
  unfold scan_step. rewrite Hopen, Hsep, Hclose. cbn [andb].
  destruct st as [hs cur [[|]|] start]; cbn in *.
  - reflexivity.
  - destruct cur as [h|].
    + exists h. repeat split.
    + destruct Hiff as [_ H]. specialize (H eq_refl). discriminate.
  - destruct cur as [h|]; [|reflexivity].
    destruct Hiff as [H _]. specialize (H eq_refl). discriminate.
Qed.

Lemma separator_by_state_witness :
  let pre := [ln "<<<<<<< HEAD"; ln "x"; ln "======="; ln "y"] in
  let h := {| header := ln "<<<<<<< HEAD"; ours := [ln "x"]; theirs := [ln "y"];
              context_before := []; context_after := [];
              start_line := Some 0 |} in
  let st := {| hunks := []; current_hunk := Some h; state := Some Theirs;
               hunk_start := Some 0 |} in
  exists h', Some h = Some h'
    /\ scan_step 3 (pre ++ [ln "======= again"]) (len pre) (ln "======= again") st
       = Done {| hunks := []; current_hunk := Some (append_theirs h' (ln "======= again"));
                 state := Some Theirs; hunk_start := Some 0 |}
    /\ theirs (append_theirs h' (ln "======= again")) = theirs h' ++ [ln "======= again"]
    /\ ours (append_theirs h' (ln "======= again")) = ours h'.
Proof.
  intros pre h st.
  exact (separator_by_state 3 (pre ++ [ln "======= again"]) pre
           (ln "======= again") st eq_refl eq_refl).
Defined.

(** ** The prompt *)

Lemma read_choice_shape (E : Collaborators) (self : Resolver) (inp : list string) :
  match read_choice E self inp with
  | (Done c, rest, _) =>
      (length rest < length inp)%nat /\ in_options self c = true
  | (Raised e, rest, _) => e = EOFError /\ rest = []
  | _ => False
  end.
Proof.
  induction inp as [|raw rest IH]; cbn [read_choice].
  - split; reflexivity.
  - destruct (in_options self (lower (strip raw))) eqn:Hopt.
    + split; [cbn; lia | assumption].
    + destruct (read_choice E self rest) as [[[c| |e|] rest'] printed];
        cbn in *; try contradiction.
      * destruct IH. split; [lia | assumption].
      * assumption.
Qed.

(** The first line typed, once stripped and lowered, is a command: the
    prompt returns it and leaves the rest to be read. *)
Lemma prompt_user_first (E : Collaborators) (self : Resolver) (w : World)
    (raw : string) (rest : list string) :
  stdin w = raw :: rest ->
  in_options self (lower (strip raw)) = true ->
  prompt_user E self w
  = (Done (lower (strip raw)),
     set_stdin rest (put (menu E self ++ [prompt_text]) w)).
Proof.
  intros Hin Hopt. unfold prompt_user. rewrite Hin. cbn [read_choice].
  rewrite Hopt. reflexivity.
Qed.

Lemma render_frame (E : Collaborators) (p : string) (hs : list ConflictHunk)
    (self : Resolver) (w : World) :
  let w' := render E p hs self w in
  files w' = files w /\ staged w' = staged w /\ stdin w' = stdin w
  /\ environ w' = environ w.
Proof.
  unfold render, display_file_view, get_file_content.
  destruct (view_mode self); [|destruct (files w !! p)]; cbn; auto.
Qed.

(** ** The controller *)

(** The last branch of the chain (lines 228-231) is taken for [o], [t] and
    [s] alike and passes none of them on: whatever [self.resolve_hunk]
    would be, the three commands do the same. *)
Lemma dispatch_ignores_side (E : Collaborators) (attr : option method)
    (p : string) (hs : list ConflictHunk) (self : Resolver) (w : World) :
  dispatch E attr p hs "o" self w = dispatch E attr p hs "t" self w
  /\ dispatch E attr p hs "o" self w = dispatch E attr p hs "s" self w.
Proof. split; reflexivity. Qed.

Lemma dispatch_missing_method (E : Collaborators) (p : string)
    (hs : list ConflictHunk) (choice : string) (self : Resolver) (w : World) :
  choice ∈ ["o"; "t"; "s"] ->
  dispatch E resolve_hunk p hs choice self w
  = (Raised (AttributeError "GitConflictResolver" "resolve_hunk"), self, w).
Proof.
  intros Hc. repeat (apply elem_of_cons in Hc as [->|Hc]); try reflexivity.
  inversion Hc.
Qed.

Lemma dispatch_quit (E : Collaborators) (attr : option method) (p : string)
    (hs : list ConflictHunk) (self : Resolver) (w : World) :
  dispatch E attr p hs "q" self w
  = (SysExit 0, self, put [line (Fore E MAGENTA +:+ "Quitting script.")] w).
Proof. reflexivity. Qed.

Lemma dispatch_more_context (E : Collaborators) (attr : option method)
    (p : string) (hs : list ConflictHunk) (self : Resolver) (w : World) :
  let self' := {| editor := editor self; view_mode := view_mode self;
                  context_lines := Z.min (context_lines self + 3) 10 |} in
  dispatch E attr p hs "c" self w
  = (Done Continue, self',
     put [line (Fore E CYAN +:+ "Showing " +:+ str_of_int (context_lines self')
                +:+ " lines of context.")] w).
Proof. reflexivity. Qed.

(** What one command does to the window size, and that it leaves the lines
    still to be typed alone. *)
Lemma dispatch_session (E : Collaborators) (p : string)
    (hs : list ConflictHunk) (choice : string) (self : Resolver) (w : World) :
  let '(r, self', w') := dispatch E resolve_hunk p hs choice self w in
  context_lines self'
  = (if String.eqb choice "c" then Z.min (context_lines self + 3) 10
     else context_lines self)
  /\ stdin w' = stdin w
  /\ r <> OutOfFuel.
Proof.
  unfold dispatch, launch_vimdiff, call_resolve_hunk, resolve_hunk.
  destruct (String.eqb choice "q") eqn:Hq.
  { apply String.eqb_eq in Hq. subst. cbn. repeat split; discriminate. }
  destruct (String.eqb choice "m") eqn:Hm.
  { apply String.eqb_eq in Hm. subst. cbn. repeat split; discriminate. }
  destruct (String.eqb choice "c") eqn:Hc.
  { cbn. repeat split; discriminate. }
  destruct (String.eqb choice "v").
  { destruct (run_vimdiff E p w); cbn; repeat split; discriminate. }
  destruct (String.eqb choice "e").
  { destruct (run_editor E (editor self) p w) as [f| |]; cbn;
      [destruct (index_add E p (set_files f w)); cbn | |];
      repeat split; discriminate. }
  cbn. repeat split; discriminate.
Qed.

(** One turn of the loop when the first line typed is a command. *)
Lemma controller_loop_turn (E : Collaborators) (attr : option method)
    (fuel : nat) (p : string) (hs : list ConflictHunk) (self : Resolver)
    (w : World) (raw : string) (rest : list string) :
  stdin w = raw :: rest ->
  in_options self (lower (strip raw)) = true ->
  controller_loop E attr (S fuel) p hs self w
  = match dispatch E attr p hs (lower (strip raw)) self
            (set_stdin rest
               (put (menu E self ++ [prompt_text]) (render E p hs self w))) with
    | (Done Continue, self', w3) => controller_loop E attr fuel p hs self' w3
    | (Done Break, self', w3) => (Done tt, self', w3)
    | (SysExit c, self', w3) => (SysExit c, self', w3)
    | (Raised e, self', w3) => (Raised e, self', w3)
    | (OutOfFuel, self', w3) => (OutOfFuel, self', w3)
    end.
Proof.
  intros Hin Hopt. cbn [controller_loop].
  destruct (render_frame E p hs self w) as (_ & _ & Hstdin & _).
  rewrite (prompt_user_first E self (render E p hs self w) raw rest)
    by (rewrite ?Hstdin; assumption).
  reflexivity.
Qed.

(** Over a whole run of the loop a window size of at most 10 only grows
    and stays at most 10, and the loop answers within one turn per line
    typed, plus one. *)
Lemma controller_loop_session (E : Collaborators) (p : string)
    (hs : list ConflictHunk) :
  forall (fuel : nat) (self : Resolver) (w : World),
  let '(r, self', w') := controller_loop E resolve_hunk fuel p hs self w in
  (context_lines self <= 10 ->
   context_lines self <= context_lines self' /\ context_lines self' <= 10)
  /\ ((length (stdin w) < fuel)%nat -> r <> OutOfFuel).
Proof.
  induction fuel as [|fuel IH]; intros self w; cbn [controller_loop].
  - split; lia.
  - destruct (render_frame E p hs self w) as (_ & _ & Hstdin & _).
    unfold prompt_user.
    pose proof (read_choice_shape E self (stdin (render E p hs self w))) as Hrc.
    destruct (read_choice E self (stdin (render E p hs self w)))
      as [[[c| |e|] rest] printed]; try contradiction.
    2: { split; [lia | discriminate]. }
    destruct Hrc as [Hlen _]. rewrite Hstdin in Hlen.
    set (w2 := set_stdin rest _).
    pose proof (dispatch_session E p hs c self w2) as Hd.
    destruct (dispatch E resolve_hunk p hs c self w2) as [[[[|]| |e|] self1] w3];
      destruct Hd as (Hcl & Hin & Hfuel).
    + specialize (IH self1 w3).
      destruct (controller_loop E resolve_hunk fuel p hs self1 w3)
        as [[r self2] w4].
      destruct IH as (H1 & H3).
      split.
      * destruct (String.eqb c "c"); lia.
      * intros Hf. apply H3. rewrite Hin. subst w2. cbn. lia.
    + split; [destruct (String.eqb c "c"); lia | discriminate].
    + split; [destruct (String.eqb c "c"); lia | discriminate].
    + split; [destruct (String.eqb c "c"); lia | discriminate].
    + congruence.
Qed.

Lemma process_file_session (E : Collaborators) (p : string) (self : Resolver)
    (w : World) :
  let '(r, self', w') := process_file E p self w in
  (context_lines self <= 10 ->
   context_lines self <= context_lines self' /\ context_lines self' <= 10)
  /\ r <> OutOfFuel.
Proof.
  unfold process_file, process_file_with, get_conflicts.
  destruct (get_file_content E p w) as [content printed].
  destruct (parse_conflicts_total (context_lines self) content) as [hs ->].
  destruct hs as [|h hs].
  - split; [lia | discriminate].
  - pose proof (controller_loop_session E p (h :: hs)
                  (S (length (stdin (put printed w)))) self (put printed w)) as H.
    destruct (controller_loop _ _ _ _ _ _ _) as [[r self'] w'].
    destruct H as (H1 & H3). split; [assumption | apply H3; lia].
Qed.

Lemma process_files_session (E : Collaborators) (paths : list string) :
  forall (self : Resolver) (w : World),
  let '(r, self', w') := process_files E paths self w in
  (context_lines self <= 10 ->
   context_lines self <= context_lines self' /\ context_lines self' <= 10)
  /\ r <> OutOfFuel.
Proof.
  induction paths as [|p paths IH]; intros self w; cbn [process_files].
  - split; [lia | discriminate].
  - pose proof (process_file_session E p self w) as H.
    destruct (process_file E p self w) as [[[[]| |e|] self1] w1];
      destruct H as (H1 & H3); try (split; [assumption | congruence]).
    specialize (IH self1 w1).
    destruct (process_files E paths self1 w1) as [[r self2] w2].
    destruct IH as (H4 & H6). split; [lia | assumption].
Qed.

(** C6: the window size is 3 when the resolver is created; a command
    changes it only if it is [c], which makes it [min (size + 3) 10]; over any
    run of [process_files] a size of at most 10 never decreases and never
    exceeds 10; and [c, c, c, c] from the start gives 6, 9, 10, 10. *)
Theorem context_lines_session (E : Collaborators) :
  (forall w, context_lines (new_resolver w) = 3)
  /\ (forall p hs choice self w,
        context_lines (dispatch E resolve_hunk p hs choice self w).1.2
        = if String.eqb choice "c" then Z.min (context_lines self + 3) 10
          else context_lines self)
  /\ (forall paths self w,
        context_lines self <= 10 ->
        context_lines self <= context_lines (process_files E paths self w).1.2
        /\ context_lines (process_files E paths self w).1.2 <= 10)
  /\ (forall p hs w w0,
        let more self := (dispatch E resolve_hunk p hs "c" self w).1.2 in
        let r0 := new_resolver w0 in
        map context_lines
          [more r0; more (more r0); more (more (more r0));
           more (more (more (more r0)))]
        = [6; 9; 10; 10])
  /\ (let w := session {[ "f.txt" := scenario_file ]} ["c"; "c"; "c"; "c"; "q"] in
      let run := process_file (calm ["f.txt"]) "f.txt" (new_resolver w) w in
      run.1.1 = SysExit 0
      /\ context_lines run.1.2 = 10
      /\ showing_lines (stdout run.2)
         = [line (ansi CYAN +:+ "Showing 6 lines of context.");
            line (ansi CYAN +:+ "Showing 9 lines of context.");
            line (ansi CYAN +:+ "Showing 10 lines of context.");
            line (ansi CYAN +:+ "Showing 10 lines of context.")]).
Proof.
  split; [reflexivity|]. split.
  { intros p hs choice self w.
    pose proof (dispatch_session E p hs choice self w) as H.
    destruct (dispatch E resolve_hunk p hs choice self w) as [[r self'] w'].
    apply H. }
  split.
  { intros paths self w Hle.
    pose proof (process_files_session E paths self w) as H.
    destruct (process_files E paths self w) as [[r self'] w'].
    destruct H as [H _]. apply H, Hle. }
  split; [reflexivity|].
  vm_compute. repeat split.
Qed.

Lemma context_lines_session_witness :
  let w := session {[ "f.txt" := scenario_file ]} ["c"; "q"] in
  context_lines (new_resolver w)
  <= context_lines (process_files (calm ["f.txt"]) ["f.txt"] (new_resolver w) w).1.2
  /\ context_lines (process_files (calm ["f.txt"]) ["f.txt"] (new_resolver w) w).1.2
     <= 10.
Proof.
  intros w.
  apply (proj1 (proj2 (proj2 (context_lines_session (calm ["f.txt"]))))
           ["f.txt"] (new_resolver w) w).
  cbn. lia.
Defined.

Lemma in_options_keys (self : Resolver) (c : string) :
  c ∈ ["o"; "t"; "e"; "v"; "m"; "c"; "s"; "q"] -> in_options self c = true.
Proof. intros H. unfold in_options. apply bool_decide_eq_true. exact H. Qed.

(** [o], [t] and [s] end the loop, and the run, in the [AttributeError] of
    the missing method; no file and no index entry has been touched. *)
Lemma keep_or_skip_raises (E : Collaborators) (fuel : nat) (p : string)
    (hs : list ConflictHunk) (self : Resolver) (w : World) (raw : string)
    (rest : list string) :
  stdin w = raw :: rest ->
  lower (strip raw) ∈ ["o"; "t"; "s"] ->
  exists w',
    controller_loop E resolve_hunk (S fuel) p hs self w
    = (Raised (AttributeError "GitConflictResolver" "resolve_hunk"), self, w')
    /\ files w' = files w /\ staged w' = staged w /\ stdin w' = rest.
Proof.
  intros Hin Hc.
  rewrite (controller_loop_turn E resolve_hunk fuel p hs self w raw rest Hin).
  2: { apply in_options_keys.
       repeat (apply elem_of_cons in Hc as [->|Hc]);
         [set_solver | set_solver | set_solver | inversion Hc]. }
  rewrite dispatch_missing_method by assumption.
  eexists. split; [reflexivity|].
  destruct (render_frame E p hs self w) as (Hf & Hs & _). cbn. auto.
Qed.

(** [process_files] stops at the first file whose processing does not
    return: the files after it are not looked at. *)
Lemma process_files_stops (E : Collaborators) (p : string) (ps : list string)
    (self self' : Resolver) (w w' : World) (r : outcome unit) :
  process_file E p self w = (r, self', w') ->
  (forall u, r <> Done u) ->
  process_files E (p :: ps) self w = (r, self', w').
Proof.
  intros Hp Hr. cbn [process_files]. rewrite Hp.
  destruct r; [exfalso; eapply Hr; reflexivity | reflexivity..].
Qed.

(** ** More context *)

(** The [c] command changes [self.context_lines] and goes round the loop
    with the hunks it had: their context fields are those of the parse at
    the top of [process_file]. *)
Lemma more_context_keeps_hunks (E : Collaborators) (attr : option method)
    (fuel : nat) (p : string) (hs : list ConflictHunk) (self : Resolver)
    (w : World) (raw : string) (rest : list string) :
  stdin w = raw :: rest -> lower (strip raw) = "c" ->
  exists w',
    controller_loop E attr (S fuel) p hs self w
    = controller_loop E attr fuel p hs
        {| editor := editor self; view_mode := view_mode self;
           context_lines := Z.min (context_lines self + 3) 10 |} w'
    /\ files w' = files w.
Proof.
  intros Hin Hc.
  rewrite (controller_loop_turn E attr fuel p hs self w raw rest Hin)
    by (rewrite Hc; apply in_options_keys; set_solver).
  rewrite Hc, dispatch_more_context. cbv zeta. eexists. split; [reflexivity|].
  destruct (render_frame E p hs self w) as (Hf & _). cbn. exact Hf.
Qed.

(** ** The per-hunk view *)

(** C3 as stated fails on the scenario hunk: whatever is allowed in front
    of it, the view printed is not the specified one, because the line
    [>>>>>>> branch] is printed among the theirs lines. *)
Lemma display_hunk_strips_end_marker_counterexample :
  ~ exists banner,
      display_hunk (calm []) scenario_hunk 0
      = banner ++ hunk_view_as_specified (calm []) scenario_hunk.
Proof.
  intros [banner H].
  assert (Hlen : length banner = 3%nat).
  { apply (f_equal length) in H. rewrite length_app in H.
    change (length (display_hunk (calm []) scenario_hunk 0)) with 11%nat in H.
    change (length (hunk_view_as_specified (calm []) scenario_hunk))
      with 8%nat in H.
    lia. }
  destruct banner as [|b1 [|b2 [|b3 [|b4 banner]]]]; try discriminate Hlen.
  vm_compute in H. discriminate H.
Qed.

(** C3, amended: the per-hunk view is two banner lines, the context before,
    the header, the ours tag, the ours lines, the separator tag, every theirs
    line, the theirs tag and the context after, body and context lines with
    their trailing white space stripped; and a hunk the parser closes at an
    end-marker line has that line as its last theirs line, so the view prints
    it, stripped, right before the theirs tag. *)
Theorem display_hunk_prints_end_marker (E : Collaborators) :
  (forall hunk idx,
     display_hunk E hunk idx
     = [line (NL +:+ Fore E BLUE +:+ "Conflict " +:+ str_of_int (idx + 1) +:+ ":");
        line (Fore E BLUE +:+ rule 80)]
       ++ map (fun l => line (Fore E RESET_ALL +:+ rstrip l)) (context_before hunk)
       ++ [line (Fore E RED +:+ header hunk); line (Fore E RED +:+ "<<<<<<< ours")]
       ++ map (fun l => line (Fore E RED +:+ rstrip l)) (ours hunk)
       ++ [line (Fore E YELLOW +:+ "=======")]
       ++ map (fun l => line (Fore E GREEN +:+ rstrip l)) (theirs hunk)
       ++ [line (Fore E GREEN +:+ ">>>>>>> theirs")]
       ++ map (fun l => line (Fore E RESET_ALL +:+ rstrip l)) (context_after hunk))
  /\ (forall k pre l post st h idx,
        scan_loop k (pre ++ l :: post) 0 pre scan_init = Done st ->
        state st = Some Theirs -> current_hunk st = Some h ->
        startswith l ">>>>>>>" = true ->
        exists hs hk,
          parse_conflicts k (pre ++ l :: post) = Done hs /\ hk ∈ hs
          /\ header hk = header h /\ ours hk = ours h
          /\ theirs hk = theirs h ++ [l]
          /\ exists above below,
               display_hunk E hk idx
               = above
                 ++ map (fun l => line (Fore E GREEN +:+ rstrip l)) (theirs h)
                 ++ [line (Fore E GREEN +:+ rstrip l);
                     line (Fore E GREEN +:+ ">>>>>>> theirs")]
                 ++ below).
Proof.
  split; [reflexivity|].
  intros k pre l post st h idx Hscan Hstate Hcur Hend.
  set (content := pre ++ l :: post) in *.
  destruct (scan_loop_inv k content pre 0 scan_init scan_init_inv)
    as (st0 & Hloop & [Hiff Hstart] & _).
  rewrite Hscan in Hloop. assert (st0 = st) as -> by congruence. clear Hloop.
  destruct (Hstart ltac:(rewrite Hcur; eauto)) as [s Hs].
  assert (Hopen : startswith l "<<<<<<<" = false)
    by (eapply startswith_other_head; [eassumption | discriminate]).
  assert (Hsep : startswith l "=======" = false)
    by (eapply startswith_other_head; [eassumption | discriminate]).
  set (hk := set_context (append_theirs h l)
               (extract_context k content s (0 + len pre + 1))).
  set (st1 := {| hunks := hunks st ++ [hk]; current_hunk := None;
                 state := None; hunk_start := Some s |}).
  assert (Hstep : scan_step k content (0 + len pre) l st = Done st1).
  { unfold scan_step. rewrite Hopen, Hsep, Hend, Hstate, Hcur, Hs.
    cbn [andb]. rewrite bool_decide_eq_true_2 by reflexivity. reflexivity. }
  assert (Hinv1 : scan_inv st1).
  { split; [split; reflexivity | intros [? ?]; discriminate]. }
  destruct (scan_loop_inv k content post (0 + len pre + 1) st1 Hinv1)
    as (st2 & Hloop2 & _ & Hpre2).
  exists (hunks st2), hk. split.
  { unfold parse_conflicts. fold content.
    change (scan_loop k content 0 content scan_init)
      with (scan_loop k content 0 (pre ++ l :: post) scan_init).
    rewrite scan_loop_app, Hscan. cbn [mbind outcome_bind obind scan_loop].
    rewrite Hstep. cbn [mbind outcome_bind obind]. rewrite Hloop2. reflexivity. }
  split.
  { destruct Hpre2 as [tail ->]. cbn [hunks st1].
    apply elem_of_app. left. apply elem_of_app. right. apply list_elem_of_singleton.
    reflexivity. }
  repeat split.
  exists ([line (NL +:+ Fore E BLUE +:+ "Conflict " +:+ str_of_int (idx + 1) +:+ ":");
           line (Fore E BLUE +:+ rule 80)]
          ++ map (fun l => line (Fore E RESET_ALL +:+ rstrip l)) (context_before hk)
          ++ [line (Fore E RED +:+ header hk); line (Fore E RED +:+ "<<<<<<< ours")]
          ++ map (fun l => line (Fore E RED +:+ rstrip l)) (ours hk)
          ++ [line (Fore E YELLOW +:+ "=======")]),
         (map (fun l => line (Fore E RESET_ALL +:+ rstrip l)) (context_after hk)).
  unfold display_hunk.
  change (theirs hk) with (theirs h ++ [l]).
  rewrite map_app. cbn [map]. rewrite <- !app_assoc. reflexivity.
Qed.

Lemma display_hunk_prints_end_marker_witness :
  let pre := [ln "a"; ln "<<<<<<< HEAD"; ln "x"; ln "======="; ln "y"] in
  let l := ln ">>>>>>> branch" in
  let h := {| header := ln "<<<<<<< HEAD"; ours := [ln "x"]; theirs := [ln "y"];
              context_before := []; context_after := [];
              start_line := Some 1 |} in
  exists hs hk,
    parse_conflicts 3 (pre ++ l :: [ln "b"]) = Done hs /\ hk ∈ hs
    /\ header hk = header h /\ ours hk = ours h
    /\ theirs hk = theirs h ++ [l]
    /\ exists above below,
         display_hunk (calm []) hk 0
         = above
           ++ map (fun l => line (ansi GREEN +:+ rstrip l)) (theirs h)
           ++ [line (ansi GREEN +:+ rstrip l);
               line (ansi GREEN +:+ ">>>>>>> theirs")]
           ++ below.
Proof.
  intros pre l h.
  exact (proj2 (display_hunk_prints_end_marker (calm [])) 3 pre l [ln "b"]
           {| hunks := []; current_hunk := Some h; state := Some Theirs;
              hunk_start := Some 1 |} h 0 eq_refl eq_refl eq_refl eq_refl).
Defined.

(** * Further properties of the code *)

(** ** The scan, line by line *)

(** Induction over the lines already read: what holds at the start and is
    kept by every turn of the loop holds of the state the scan ends in. *)
Lemma scan_loop_ind (k : Z) (content : list string)
    (P : list string -> scan_state -> Prop) :
  (forall done l rest st st',
     content = done ++ l :: rest -> scan_inv st -> P done st ->
     scan_step k content (len done) l st = Done st' -> P (done ++ [l]) st') ->
  forall lines done st st',
    content = done ++ lines -> scan_inv st -> P done st ->
    scan_loop k content (len done) lines st = Done st' -> P content st'.
Proof.
  intros Hstep. induction lines as [|l rest IH]; intros done st st' Hc Hinv HP Hrun.
  - cbn [scan_loop] in Hrun. rewrite app_nil_r in Hc.
    assert (st = st') as <- by congruence. rewrite Hc. exact HP.
  - cbn [scan_loop] in Hrun.
    destruct (scan_step_inv k content (len done) l st Hinv)
      as (st1 & Hs & Hinv1 & _).
    rewrite Hs in Hrun. cbn [mbind outcome_bind obind] in Hrun.
    apply (IH (done ++ [l]) st1 st').
    + rewrite <- app_assoc. exact Hc.
    + exact Hinv1.
    + exact (Hstep done l rest st st1 Hc Hinv HP Hs).
    + replace (len (done ++ [l])) with (len done + 1); [exact Hrun|].
      unfold len. rewrite length_app. cbn. lia.
Qed.

Lemma scan_whole_ind (k : Z) (content : list string)
    (P : list string -> scan_state -> Prop) :
  P [] scan_init ->
  (forall done l rest st st',
     content = done ++ l :: rest -> scan_inv st -> P done st ->
     scan_step k content (len done) l st = Done st' -> P (done ++ [l]) st') ->
  exists st, scan_loop k content 0 content scan_init = Done st /\ P content st.
Proof.
  intros H0 Hstep.
  destruct (scan_loop_inv k content content 0 scan_init scan_init_inv)
    as (st & Hrun & _).
  exists st. split; [exact Hrun|].
  apply (scan_loop_ind k content P Hstep content [] scan_init st);
    auto using scan_init_inv.
Qed.


Lemma Done_inj {A : Type} (a b : A) : Done a = Done b -> a = b.
Proof. intros H. congruence. Qed.


(** ** Where the parsed hunks lie in the file *)

Lemma ordered_spans_mono (spans : list (Z * Z)) :
  forall lo hi hi', ordered_spans lo spans hi -> hi <= hi' ->
  ordered_spans lo spans hi'.
Proof.
  induction spans as [|[s e] rest IH]; intros lo hi hi' H Hle; cbn in *.
  - lia.
  - destruct H as (H1 & H2 & H3). eauto.
Qed.

Lemma ordered_spans_snoc (spans : list (Z * Z)) (s e hi : Z) :
  forall lo, ordered_spans lo spans s -> s < e -> e <= hi ->
  ordered_spans lo (spans ++ [(s, e)]) hi.
Proof.
  induction spans as [|[s0 e0] rest IH]; intros lo H Hse Hhi; cbn in *.
  - auto.
  - destruct H as (H1 & H2 & H3). auto.
Qed.

Lemma ordered_spans_le (spans : list (Z * Z)) :
  forall lo hi, ordered_spans lo spans hi -> lo <= hi.
Proof.
  induction spans as [|[s0 e0] rest IH]; intros lo hi H; cbn in *.
  - exact H.
  - destruct H as (H1 & H2 & H3). specialize (IH e0 hi H3). lia.
Qed.

Lemma ordered_spans_in (spans : list (Z * Z)) (s e : Z) :
  forall lo hi, ordered_spans lo spans hi -> (s, e) ∈ spans ->
  lo <= s /\ s < e /\ e <= hi.
Proof.
  induction spans as [|[s0 e0] rest IH]; intros lo hi H Hin; cbn in *.
  - inversion Hin.
  - destruct H as (H1 & H2 & H3).
    pose proof (ordered_spans_le rest e0 hi H3) as Hle.
    apply elem_of_cons in Hin as [Heq|Hin].
    + assert (s = s0 /\ e = e0) as [-> ->] by (split; congruence).
      repeat split; lia.
    + destruct (IH e0 hi H3 Hin) as (? & ? & ?). repeat split; lia.
Qed.

Lemma lookup_middle_len (done rest : list string) (l : string) :
  (done ++ l :: rest) !! Z.to_nat (len done) = Some l.
Proof.
  unfold len. rewrite Nat2Z.id. apply list_lookup_middle. reflexivity.
Qed.

Lemma len_snoc (done : list string) (l : string) :
  len (done ++ [l]) = len done + 1.
Proof. unfold len. rewrite length_app. cbn. lia. Qed.

Lemma extract_context_bounds (content : list string) (s e k : Z) :
  0 <= s <= e -> e <= len content -> 0 <= k ->
  len (fst (extract_context k content s e)) <= k
  /\ len (snd (extract_context k content s e)) <= k.
Proof.
  intros Hs He Hk. rewrite before_window, after_window by lia.
  unfold len in *. rewrite length_drop, !length_take, length_drop. lia.
Qed.

Lemma hunk_at_set_context (k : Z) (content : list string) (h : ConflictHunk)
    (s e : Z) :
  start_line h = Some s -> content !! Z.to_nat s = Some (header h) ->
  is_start (header h) = true ->
  hunk_at k content (set_context h (extract_context k content s e)) (s, e).
Proof.
  intros H1 H2 H3. unfold hunk_at. cbn. repeat split; assumption.
Qed.

Lemma scan_step_spans (k : Z) (content done rest : list string) (l : string)
    (st st' : scan_state) :
  content = done ++ l :: rest -> scan_inv st -> spans_inv k content done st ->
  scan_step k content (len done) l st = Done st' ->
  spans_inv k content (done ++ [l]) st'.
Proof.
  intros Hc [Hiff Hstart] (spans & Hall & Hcur) Hs.
  unfold scan_step in Hs. unfold spans_inv. rewrite len_snoc.
  assert (Hlen : 0 <= len done) by (unfold len; lia).
  destruct (startswith l "<<<<<<<") eqn:Hopen.
  { destruct (current_hunk st) as [h|] eqn:Hch.
    - destruct Hcur as (s & Hhs & Hsl & Hrange & Hlook & Hstartl & Hord).
      rewrite Hhs in Hs. apply Done_inj in Hs. subst st'. scan_simpl.
      exists (spans ++ [(s, len done)]). split.
      + apply Forall2_app; [exact Hall|]. constructor; [|constructor].
        apply hunk_at_set_context; assumption.
      + exists (len done).
        split; [reflexivity|]. split; [reflexivity|].
        split; [lia|]. split; [rewrite Hc; apply lookup_middle_len|].
        split; [exact Hopen|].
        apply ordered_spans_snoc; [exact Hord | lia | lia].
    - apply Done_inj in Hs. subst st'. scan_simpl.
      exists spans. split; [exact Hall|].
      exists (len done).
      split; [reflexivity|]. split; [reflexivity|].
      split; [lia|]. split; [rewrite Hc; apply lookup_middle_len|].
      split; [exact Hopen|]. exact Hcur. }
  destruct (startswith l "=======" && bool_decide (state st = Some Ours)).
  { apply Done_inj in Hs. subst st'. scan_simpl. exists spans.
    split; [exact Hall|].
    destruct (current_hunk st) as [h|].
    - destruct Hcur as (s & Hhs & Hsl & Hrange & Hlook & Hstartl & Hord).
      exists s. open_hunk_facts.
    - eapply ordered_spans_mono; [exact Hcur | lia]. }
  destruct (startswith l ">>>>>>>" && bool_decide (state st = Some Theirs)).
  { destruct (current_hunk st) as [h|] eqn:Hch.
    - destruct Hcur as (s & Hhs & Hsl & Hrange & Hlook & Hstartl & Hord).
      rewrite Hhs in Hs. apply Done_inj in Hs. subst st'. scan_simpl.
      exists (spans ++ [(s, len done + 1)]). split.
      + apply Forall2_app; [exact Hall|]. constructor; [|constructor].
        apply (hunk_at_set_context k content (append_theirs h l)); assumption.
      + apply ordered_spans_snoc; [exact Hord | lia | lia].
    - apply Done_inj in Hs. subst st'. scan_simpl. exists spans.
      split; [exact Hall|]. eapply ordered_spans_mono; [exact Hcur | lia]. }
  destruct (current_hunk st) as [h|] eqn:Hch.
  - destruct Hcur as (s & Hhs & Hsl & Hrange & Hlook & Hstartl & Hord).
    destruct (state st) as [[|]|]; apply Done_inj in Hs; subst st'; scan_simpl;
      rewrite ?Hch; exists spans; (split; [exact Hall|]);
      exists s; open_hunk_facts.
  - apply Done_inj in Hs. subst st'. exists spans. split; [exact Hall|].
    rewrite Hch. eapply ordered_spans_mono; [exact Hcur | lia].
Qed.

Lemma parsed_spans (k : Z) (content : list string) :
  exists hs spans,
    parse_conflicts k content = Done hs
    /\ Forall2 (hunk_at k content) hs spans
    /\ ordered_spans 0 spans (len content).
Proof.
  destruct (scan_whole_ind k content (spans_inv k content))
    as (st & Hrun & spans & Hall & Hcur).
  { exists []. split; [constructor|]. cbn. unfold len. cbn. lia. }
  { intros. eapply scan_step_spans; eassumption. }
  exists (hunks st), spans. unfold parse_conflicts. rewrite Hrun.
  split; [reflexivity|]. split; [exact Hall|].
  destruct (current_hunk st) as [h|].
  - destruct Hcur as (s & _ & _ & Hrange & _ & _ & Hord).
    eapply ordered_spans_mono; [exact Hord | lia].
  - exact Hcur.
Qed.

(** X2: the hunks come in file order and never overlap: each sits on a
    span [s, e) of lines, [0 <= s < e <= len(content)], that ends before the
    next begins; its [start_line] is [s], its header is line [s] of the file
    and begins with [<<<<<<<], and its context is the window around that span
    at the size in force. *)
Theorem hunks_in_file_order (k : Z) (content : list string) :
  exists hs spans,
    parse_conflicts k content = Done hs
    /\ Forall2 (hunk_at k content) hs spans
    /\ ordered_spans 0 spans (len content)
    /\ (forall s e, (s, e) ∈ spans -> 0 <= s /\ s < e /\ e <= len content).
Proof.
  destruct (parsed_spans k content) as (hs & spans & Hp & Hall & Hord).
  exists hs, spans. repeat split; try assumption;
    destruct (ordered_spans_in spans s e 0 (len content) Hord H) as (? & ? & ?);
    assumption.
Qed.

(** X3: for a size [k >= 0] no parsed hunk carries more than [k] context
    lines on either side. *)
Theorem hunk_context_at_most_k (k : Z) (content : list string) :
  0 <= k ->
  exists hs,
    parse_conflicts k content = Done hs
    /\ Forall (fun h => len (context_before h) <= k
                        /\ len (context_after h) <= k) hs.
Proof.
  intros Hk. destruct (parsed_spans k content) as (hs & spans & Hp & Hall & Hord).
  exists hs. split; [exact Hp|].
  apply Forall_forall. intros h Hh.
  destruct (proj1 (list_elem_of_lookup hs h) Hh) as [i Hi].
  destruct (Forall2_lookup_l _ _ _ _ _ Hall Hi) as ([s e] & Hspan & Hat).
  assert (Hin : (s, e) ∈ spans) by (apply list_elem_of_lookup; eauto).
  destruct (ordered_spans_in spans s e 0 (len content) Hord Hin) as (Hs & Hse & He).
  destruct Hat as (_ & _ & _ & Hctx). cbn [fst snd] in Hctx.
  destruct (extract_context_bounds content s e k) as [Hb Ha]; try lia.
  rewrite <- Hctx in Hb, Ha. exact (conj Hb Ha).
Qed.

Lemma hunk_context_at_most_k_witness :
  exists hs,
    parse_conflicts 3 deep_file = Done hs
    /\ Forall (fun h => len (context_before h) <= 3
                        /\ len (context_after h) <= 3) hs.
Proof. apply (hunk_context_at_most_k 3 deep_file). lia. Defined.

(** ** The scan on lines of a known kind *)

Lemma scan_step_idle (k : Z) (content : list string) (i : Z) (l : string)
    (st : scan_state) :
  is_start l = false -> current_hunk st = None -> state st = None ->
  scan_step k content i l st = Done st.
Proof.
  intros Hl Hc Hs. unfold scan_step. unfold is_start in Hl.
  rewrite Hl, Hc, Hs.
  rewrite !bool_decide_eq_false_2 by discriminate.
  rewrite !andb_false_r. reflexivity.
Qed.

Lemma scan_loop_idle (k : Z) (content ls : list string) :
  forall (i : Z) (st : scan_state),
  Forall (fun l => is_start l = false) ls ->
  current_hunk st = None -> state st = None ->
  scan_loop k content i ls st = Done st.
Proof.
  induction ls as [|l ls IH]; intros i st H Hc Hs; [reflexivity|].
  apply Forall_cons in H as [Hl H]. cbn [scan_loop].
  rewrite scan_step_idle by assumption.
  cbn [mbind outcome_bind obind]. apply IH; assumption.
Qed.

Lemma scan_step_open (k : Z) (content : list string) (i : Z) (l : string)
    (st : scan_state) :
  is_start l = true -> current_hunk st = None ->
  scan_step k content i l st = Done (open_at (hunks st) l i [] [] Ours).
Proof.
  intros Hl Hc. unfold scan_step. unfold is_start in Hl. rewrite Hl, Hc.
  reflexivity.
Qed.

Lemma scan_step_ours (k : Z) (content : list string) (i : Z) (l : string)
    (hs : list ConflictHunk) (hd : string) (s : Z) (os ts : list string) :
  is_start l = false -> is_separator l = false ->
  scan_step k content i l (open_at hs hd s os ts Ours)
  = Done (open_at hs hd s (os ++ [l]) ts Ours).
Proof.
  intros H1 H2. unfold scan_step, is_start, is_separator, open_at in *.
  rewrite H1, H2. scan_simpl. cbn [andb].
  rewrite (bool_decide_eq_false_2 (Some Ours = Some Theirs)) by discriminate.
  rewrite andb_false_r. reflexivity.
Qed.

Lemma scan_step_separator (k : Z) (content : list string) (i : Z) (l : string)
    (hs : list ConflictHunk) (hd : string) (s : Z) (os ts : list string) :
  is_separator l = true ->
  scan_step k content i l (open_at hs hd s os ts Ours)
  = Done (open_at hs hd s os ts Theirs).
Proof.
  intros H. unfold is_separator in H.
  assert (Hopen : startswith l "<<<<<<<" = false)
    by (eapply startswith_other_head; [eassumption | discriminate]).
  unfold scan_step, open_at. rewrite Hopen, H. scan_simpl.
  rewrite bool_decide_eq_true_2 by reflexivity. reflexivity.
Qed.

Lemma scan_step_theirs (k : Z) (content : list string) (i : Z) (l : string)
    (hs : list ConflictHunk) (hd : string) (s : Z) (os ts : list string) :
  is_start l = false -> is_end l = false ->
  scan_step k content i l (open_at hs hd s os ts Theirs)
  = Done (open_at hs hd s os (ts ++ [l]) Theirs).
Proof.
  intros H1 H2. unfold scan_step, is_start, is_end, open_at in *.
  rewrite H1, H2. scan_simpl. cbn [andb].
  rewrite (bool_decide_eq_false_2 (Some Theirs = Some Ours)) by discriminate.
  rewrite andb_false_r. reflexivity.
Qed.

Lemma scan_step_end (k : Z) (content : list string) (i : Z) (l : string)
    (hs : list ConflictHunk) (hd : string) (s : Z) (os ts : list string) :
  is_end l = true ->
  scan_step k content i l (open_at hs hd s os ts Theirs)
  = Done {| hunks :=
              hs ++ [ {| header := hd; ours := os; theirs := ts ++ [l];
                         context_before :=
                           fst (extract_context k content s (i + 1));
                         context_after :=
                           snd (extract_context k content s (i + 1));
                         start_line := Some s |} ];
            current_hunk := None; state := None; hunk_start := Some s |}.
Proof.
  intros H. unfold is_end in H.
  assert (Hopen : startswith l "<<<<<<<" = false)
    by (eapply startswith_other_head; [eassumption | discriminate]).
  assert (Hsep : startswith l "=======" = false)
    by (eapply startswith_other_head; [eassumption | discriminate]).
  unfold scan_step, open_at. rewrite Hopen, Hsep, H. scan_simpl. cbn [andb].
  rewrite (bool_decide_eq_true_2 (Some Theirs = Some Theirs)) by reflexivity.
  reflexivity.
Qed.

Lemma scan_loop_ours (k : Z) (content ls : list string) :
  forall (i : Z) (hs : list ConflictHunk) (hd : string) (s : Z)
         (os ts : list string),
  Forall (fun l => is_start l = false /\ is_separator l = false) ls ->
  scan_loop k content i ls (open_at hs hd s os ts Ours)
  = Done (open_at hs hd s (os ++ ls) ts Ours).
Proof.
  induction ls as [|l ls IH]; intros i hs hd s os ts H; cbn [scan_loop].
  - rewrite app_nil_r. reflexivity.
  - apply Forall_cons in H as [[H1 H2] H].
    rewrite scan_step_ours by assumption. cbn [mbind outcome_bind obind].
    rewrite IH by assumption. rewrite <- app_assoc. reflexivity.
Qed.

Lemma scan_loop_theirs (k : Z) (content ls : list string) :
  forall (i : Z) (hs : list ConflictHunk) (hd : string) (s : Z)
         (os ts : list string),
  Forall (fun l => is_start l = false /\ is_end l = false) ls ->
  scan_loop k content i ls (open_at hs hd s os ts Theirs)
  = Done (open_at hs hd s os (ts ++ ls) Theirs).
Proof.
  induction ls as [|l ls IH]; intros i hs hd s os ts H; cbn [scan_loop].
  - rewrite app_nil_r. reflexivity.
  - apply Forall_cons in H as [[H1 H2] H].
    rewrite scan_step_theirs by assumption. cbn [mbind outcome_bind obind].
    rewrite IH by assumption. rewrite <- app_assoc. reflexivity.
Qed.

(** An open hunk stays open over lines that begin with neither the start
    nor the end token. *)
Lemma scan_loop_open (k : Z) (content ls : list string) :
  forall (i : Z) (hs : list ConflictHunk) (hd : string) (s : Z)
         (os ts : list string) (sd : side),
  Forall (fun l => is_start l = false /\ is_end l = false) ls ->
  exists os' ts' sd',
    scan_loop k content i ls (open_at hs hd s os ts sd)
    = Done (open_at hs hd s os' ts' sd').
Proof.
  induction ls as [|l ls IH]; intros i hs hd s os ts sd H; cbn [scan_loop].
  - eauto.
  - apply Forall_cons in H as [[H1 H2] H]. destruct sd.
    + destruct (is_separator l) eqn:Hsep.
      * rewrite scan_step_separator by assumption.
        cbn [mbind outcome_bind obind]. apply IH; assumption.
      * rewrite scan_step_ours by assumption.
        cbn [mbind outcome_bind obind]. apply IH; assumption.
    + rewrite scan_step_theirs by assumption.
      cbn [mbind outcome_bind obind]. apply IH; assumption.
Qed.

(** The scan of one well-formed conflict block between marker-free lines. *)
Lemma scan_single_block (k : Z) (content pre os ts post : list string)
    (start sep end_ : string) (i : Z) :
  Forall (fun l => is_start l = false) pre ->
  is_start start = true ->
  Forall (fun l => is_start l = false /\ is_separator l = false) os ->
  is_separator sep = true ->
  Forall (fun l => is_start l = false /\ is_end l = false) ts ->
  is_end end_ = true ->
  Forall (fun l => is_start l = false) post ->
  let s := i + len pre in
  let e := i + len pre + 1 + len os + 1 + len ts + 1 in
  scan_loop k content i
    (pre ++ [start] ++ os ++ [sep] ++ ts ++ [end_] ++ post) scan_init
  = Done {| hunks :=
              [ {| header := start; ours := os; theirs := ts ++ [end_];
                   context_before := fst (extract_context k content s e);
                   context_after := snd (extract_context k content s e);
                   start_line := Some s |} ];
            current_hunk := None; state := None; hunk_start := Some s |}.
Proof.
  intros Hpre Hstart Hos Hsep Hts Hend Hpost s e. subst s e.
  rewrite scan_loop_app, scan_loop_idle by (assumption || reflexivity).
  cbn [mbind outcome_bind obind app scan_loop].
  rewrite scan_step_open by (assumption || reflexivity).
  cbn [mbind outcome_bind obind hunks scan_init].
  rewrite scan_loop_app, scan_loop_ours by assumption.
  cbn [mbind outcome_bind obind app scan_loop].
  rewrite scan_step_separator by assumption.
  cbn [mbind outcome_bind obind].
  rewrite scan_loop_app, scan_loop_theirs by assumption.
  cbn [mbind outcome_bind obind app scan_loop].
  rewrite scan_step_end by assumption.
  cbn [mbind outcome_bind obind].
  rewrite scan_loop_idle by (assumption || reflexivity).
  reflexivity.
Qed.

(** X4: a file made of one well-formed conflict block between lines that
    begin with no start marker parses to exactly one hunk: its header is the
    start-marker line, its ours lines are the lines up to the separator, its
    theirs lines are the lines after the separator followed by the end-marker
    line itself, its context is the last [k] lines above the block and the
    first [k] lines below it, and its [start_line] is the number of lines
    above the block. *)
Theorem single_hunk_parsed (k : Z) (pre os ts post : list string)
    (start sep end_ : string) :
  Forall (fun l => is_start l = false) pre ->
  is_start start = true ->
  Forall (fun l => is_start l = false /\ is_separator l = false) os ->
  is_separator sep = true ->
  Forall (fun l => is_start l = false /\ is_end l = false) ts ->
  is_end end_ = true ->
  Forall (fun l => is_start l = false) post ->
  0 <= k ->
  parse_conflicts k (pre ++ [start] ++ os ++ [sep] ++ ts ++ [end_] ++ post)
  = Done [ {| header := start; ours := os; theirs := ts ++ [end_];
              context_before := drop (length pre - Z.to_nat k) pre;
              context_after := take (Z.to_nat k) post;
              start_line := Some (len pre) |} ].
Proof.
  intros Hpre Hstart Hos Hsep Hts Hend Hpost Hk.
  unfold parse_conflicts.
  set (content := pre ++ [start] ++ os ++ [sep] ++ ts ++ [end_] ++ post).
  unfold content at 2.
  rewrite (scan_single_block k content pre os ts post start sep end_ 0)
    by assumption.
  cbn [mbind outcome_bind obind hunks].
  set (block := [start] ++ os ++ [sep] ++ ts ++ [end_]).
  assert (Hcontent : content = (pre ++ block) ++ post).
  { subst content block. rewrite <- !app_assoc. reflexivity. }
  assert (Hblock : len (pre ++ block) = 0 + len pre + 1 + len os + 1 + len ts + 1).
  { subst block. unfold len. rewrite !length_app. cbn [length]. lia. }
  assert (Hlen : len content = len (pre ++ block) + len post).
  { rewrite Hcontent. unfold len. rewrite (length_app (pre ++ block)). lia. }
  assert (Hlp : 0 <= len pre) by (unfold len; lia).
  assert (Hlo : 0 <= len os) by (unfold len; lia).
  assert (Hlt : 0 <= len ts) by (unfold len; lia).
  assert (Hlq : 0 <= len post) by (unfold len; lia).
  assert (Hb : fst (extract_context k content (0 + len pre)
                      (0 + len pre + 1 + len os + 1 + len ts + 1))
               = drop (length pre - Z.to_nat k) pre).
  { rewrite before_window by lia.
    replace (Z.to_nat (0 + len pre)) with (length pre) by (unfold len; lia).
    rewrite Hcontent, <- app_assoc, take_app_length.
    f_equal. unfold len. lia. }
  assert (Ha : snd (extract_context k content (0 + len pre)
                      (0 + len pre + 1 + len os + 1 + len ts + 1))
               = take (Z.to_nat k) post).
  { rewrite after_window by lia. f_equal. rewrite <- Hblock, Hcontent.
    apply drop_app_length'. unfold len. lia. }
  rewrite Hb, Ha. reflexivity.
Qed.

Lemma single_hunk_parsed_witness :
  parse_conflicts 3
    ([ln "a"] ++ [ln "<<<<<<< HEAD"] ++ [ln "x"] ++ [ln "======="] ++ [ln "y"]
     ++ [ln ">>>>>>> branch"] ++ [ln "b"])
  = Done [ {| header := ln "<<<<<<< HEAD"; ours := [ln "x"];
              theirs := [ln "y"] ++ [ln ">>>>>>> branch"];
              context_before := drop (length [ln "a"] - Z.to_nat 3) [ln "a"];
              context_after := take (Z.to_nat 3) [ln "b"];
              start_line := Some (len [ln "a"]) |} ].
Proof.
  apply (single_hunk_parsed 3 [ln "a"] [ln "x"] [ln "y"] [ln "b"]
           (ln "<<<<<<< HEAD") (ln "=======") (ln ">>>>>>> branch"));
    try reflexivity; try lia;
    repeat constructor.
Defined.

(** X5: a conflict block that is never closed is not reported: when the
    lines after the last start marker begin with neither the start nor the
    end token, the parser returns no hunk for it, here none at all. *)
Theorem unterminated_hunk_dropped (k : Z) (pre body : list string)
    (start : string) :
  Forall (fun l => is_start l = false) pre ->
  is_start start = true ->
  Forall (fun l => is_start l = false /\ is_end l = false) body ->
  parse_conflicts k (pre ++ start :: body) = Done [].
Proof.
  intros Hpre Hstart Hbody. unfold parse_conflicts.
  rewrite scan_loop_app, scan_loop_idle by (assumption || reflexivity).
  cbn [mbind outcome_bind obind scan_loop].
  rewrite scan_step_open by (assumption || reflexivity).
  cbn [mbind outcome_bind obind hunks scan_init].
  destruct (scan_loop_open k (pre ++ start :: body) body (0 + len pre + 1) []
              start (0 + len pre) [] [] Ours Hbody) as (os & ts & sd & ->).
  reflexivity.
Qed.

Lemma unterminated_hunk_dropped_witness :
  parse_conflicts 3
    ([ln "a"] ++ ln "<<<<<<< HEAD" :: [ln "x"; ln "======="; ln "y"])
  = Done [].
Proof.
  apply (unterminated_hunk_dropped 3 [ln "a"] [ln "x"; ln "======="; ln "y"]
           (ln "<<<<<<< HEAD"));
    try reflexivity; repeat constructor.
Defined.

(** ** What the sides of a hunk hold *)

Lemma Forall_removelast {A : Type} (P : A -> Prop) (l : list A) :
  Forall P l -> Forall P (removelast l).
Proof.
  induction 1 as [|x l Hx Hl IH]; cbn; [constructor|].
  destruct l; [constructor | constructor; assumption].
Qed.

Lemma scan_step_sides (k : Z) (content done rest : list string) (l : string)
    (st st' : scan_state) :
  content = done ++ l :: rest -> scan_inv st -> sides_inv content st ->
  scan_step k content (len done) l st = Done st' ->
  sides_inv content st'.
Proof.
  intros Hc [Hiff Hstart] [Hall Hcur] Hs.
  assert (Hin : l ∈ content).
  { rewrite Hc. apply elem_of_app. right. apply elem_of_cons. left. reflexivity. }
  unfold scan_step in Hs. unfold sides_inv.
  destruct (startswith l "<<<<<<<") eqn:Hopen.
  { destruct (current_hunk st) as [h|] eqn:Hch.
    - destruct (Hstart ltac:(eauto)) as [s Hhs]. rewrite Hhs in Hs.
      apply Done_inj in Hs. subst st'. scan_simpl.
      destruct Hcur as (Ho & Ht & He). split.
      + apply Forall_app. split; [exact Hall|]. constructor; [|constructor].
        split; [exact Ho|]. split; [exact Ht|].
        apply Forall_removelast. exact He.
      + repeat split; constructor.
    - apply Done_inj in Hs. subst st'. scan_simpl.
      split; [exact Hall|]. repeat split; constructor. }
  destruct (startswith l "=======" && bool_decide (state st = Some Ours))
    eqn:Hsep.
  { apply Done_inj in Hs. subst st'. scan_simpl. split; assumption. }
  destruct (startswith l ">>>>>>>" && bool_decide (state st = Some Theirs))
    eqn:Hend.
  { destruct (current_hunk st) as [h|] eqn:Hch.
    - destruct (Hstart ltac:(eauto)) as [s Hhs]. rewrite Hhs in Hs.
      apply Done_inj in Hs. subst st'. scan_simpl.
      destruct Hcur as (Ho & Ht & He). split; [|exact I].
      apply Forall_app. split; [exact Hall|]. constructor; [|constructor].
      unfold sides_clean. scan_simpl. split; [exact Ho|]. split.
      + apply Forall_app. split; [exact Ht|]. constructor; [|constructor].
        split; [exact Hin | exact Hopen].
      + rewrite removelast_last. exact He.
    - apply Done_inj in Hs. subst st'. scan_simpl. split; [exact Hall | exact I]. }
  destruct (current_hunk st) as [h|] eqn:Hch.
  - destruct Hcur as (Ho & Ht & He).
    destruct (state st) as [[|]|] eqn:Hst; apply Done_inj in Hs; subst st';
      scan_simpl; rewrite ?Hch; (split; [exact Hall|]).
    + rewrite bool_decide_eq_true_2, andb_true_r in Hsep by reflexivity.
      split; [|split; assumption].
      apply Forall_app. split; [exact Ho|]. constructor; [|constructor].
      repeat split; assumption.
    + rewrite bool_decide_eq_true_2, andb_true_r in Hend by reflexivity.
      split; [exact Ho|]. split.
      * apply Forall_app. split; [exact Ht|]. constructor; [|constructor].
        split; assumption.
      * apply Forall_app. split; [exact He|]. constructor; [|constructor].
        exact Hend.
    + repeat split; assumption.
  - apply Done_inj in Hs. subst st'. rewrite Hch. split; [exact Hall | exact I].
Qed.

(** X6: every line of a parsed hunk's sides is a line of the file; no ours
    line begins with the start or the separator token, no theirs line begins
    with the start token, and no theirs line but the last begins with the end
    token. *)
Theorem parsed_sides_clean (k : Z) (content : list string) :
  exists hs,
    parse_conflicts k content = Done hs /\ Forall (sides_clean content) hs.
Proof.
  destruct (scan_whole_ind k content (fun _ st => sides_inv content st))
    as (st & Hrun & Hall & _).
  { split; [constructor | exact I]. }
  { intros. eapply scan_step_sides; eassumption. }
  exists (hunks st). unfold parse_conflicts. rewrite Hrun.
  split; [reflexivity | exact Hall].
Qed.

(** ** Reading a file for its conflicts *)

Lemma put_put (a b : list string) (w : World) :
  put b (put a w) = put (a ++ b) w.
Proof. unfold put. cbn. rewrite <- app_assoc. reflexivity. Qed.

Lemma put_nil (w : World) : put [] w = w.
Proof. destruct w. unfold put. cbn. rewrite app_nil_r. reflexivity. Qed.

Lemma parse_marker_free (k : Z) (content : list string) :
  Forall (fun l => is_start l = false) content ->
  parse_conflicts k content = Done [].
Proof.
  intros H. unfold parse_conflicts.
  rewrite scan_loop_idle by (assumption || reflexivity). reflexivity.
Qed.

Lemma process_file_marker_free (E : Collaborators) (p : string)
    (self : Resolver) (w : World) :
  marker_free (files w) p ->
  exists out,
    process_file E p self w
    = (Done tt, self,
       put (out ++ [line (Fore E YELLOW
                          +:+ "No conflict hunks found in this file.")]) w).
Proof.
  unfold marker_free, process_file, process_file_with, get_conflicts,
    get_file_content.
  destruct (files w !! p) as [content|]; intros H; cbv beta iota zeta.
  - rewrite parse_marker_free by assumption.
    eexists. rewrite put_put. reflexivity.
  - rewrite parse_marker_free by constructor.
    eexists. rewrite put_put. reflexivity.
Qed.

(** X8: a conflicted path that cannot be read is reported as having no
    conflict: [process_file] prints the read error, then that no hunk was
    found, and returns without a prompt; nothing typed is read. *)
Theorem process_file_unreadable (E : Collaborators) (p : string)
    (self : Resolver) (w : World) :
  files w !! p = None ->
  process_file E p self w
  = (Done tt, self,
     put [line (Fore E RED +:+ "Error reading file " +:+ p +:+ ": "
                +:+ ioerror_text E p);
          line (Fore E YELLOW +:+ "No conflict hunks found in this file.")] w).
Proof.
  intros H.
  unfold process_file, process_file_with, get_conflicts, get_file_content.
  rewrite H. cbv beta iota zeta.
  rewrite parse_marker_free by constructor.
  rewrite put_put. reflexivity.
Qed.

Lemma process_file_unreadable_witness :
  let w := session ∅ ["q"] in
  process_file (calm ["gone.txt"]) "gone.txt" (new_resolver w) w
  = (Done tt, new_resolver w,
     put [line (ansi RED +:+ "Error reading file gone.txt: "
                +:+ "[Errno 2] No such file or directory");
          line (ansi YELLOW +:+ "No conflict hunks found in this file.")] w).
Proof.
  intros w.
  exact (process_file_unreadable (calm ["gone.txt"]) "gone.txt"
           (new_resolver w) w eq_refl).
Defined.

(** ** Runs of [main] *)

(** Line 48 raises on the first value of the dict: the listing is empty,
    or [get_conflicted_files] does not return. *)
Lemma get_conflicted_files_cases (E : Collaborators) (w : World) :
  get_conflicted_files E w
  = match unmerged_paths E w with
    | inl e =>
        (Done [],
         put [line (Fore E RED +:+ "Error getting conflicted files: " +:+ e)] w)
    | inr [] => (Done [], w)
    | inr (_ :: _) => (Raised (AttributeError "list" "a_path"), w)
    end.
Proof.
  unfold get_conflicted_files.
  destruct (unmerged_paths E w) as [e|[|key keys]]; reflexivity.
Qed.

(** So the regular run never gets to a file. *)
Lemma regular_operation_cases (E : Collaborators) (w : World) :
  regular_operation E w
  = match repo_init E w with
    | Some e =>
        (SysExit 1,
         put [line (Fore E RED +:+ "Error initializing Git repository: "
                    +:+ e)] w)
    | None =>
        match unmerged_paths E w with
        | inl e =>
            (SysExit 0,
             put [line (Fore E RED +:+ "Error getting conflicted files: "
                        +:+ e);
                  line (Fore E GREEN +:+ "No conflicted files found. Exiting.")]
                 w)
        | inr [] =>
            (SysExit 0,
             put [line (Fore E GREEN +:+ "No conflicted files found. Exiting.")]
                 w)
        | inr (_ :: _) => (Raised (AttributeError "list" "a_path"), w)
        end
    end.
Proof.
  unfold regular_operation, init.
  destruct (repo_init E w) as [e|]; [reflexivity|].
  rewrite get_conflicted_files_cases.
  destruct (unmerged_paths E w) as [e|[|key keys]]; try reflexivity.
  rewrite put_put. reflexivity.
Qed.

Lemma regular_operation_ends (E : Collaborators) (w : World)
    (r : outcome unit) (w' : World) :
  regular_operation E w = (r, w') -> r <> OutOfFuel.
Proof.
  rewrite regular_operation_cases.
  destruct (repo_init E w) as [e|]; [congruence|].
  destruct (unmerged_paths E w) as [e|[|key keys]]; congruence.
Qed.

(** X10: on the lines typed, however many, [main] ends: it returns, exits
    or raises.  Every turn of the prompt loop takes at least one typed line,
    so the loop never needs more turns than there are lines, plus one. *)
Theorem main_ends (E : Collaborators) (argv : list string) (w : World) :
  (main E argv w).1 <> OutOfFuel.
Proof.
  destruct (main E argv w) as [r w'] eqn:Hm. cbn [fst]. revert Hm.
  unfold main. cbv zeta.
  match goal with |- context [if ?c then _ else _] => destruct c end.
  - unfold init. destruct (repo_init E w) as [e|]; [congruence|].
    pose proof (process_file_session E (default "" (environ w !! "MERGED"))
                  (new_resolver w) w) as H.
    destruct (process_file E (default "" (environ w !! "MERGED"))
                (new_resolver w) w) as [[[[]| |e|] r1] w1];
      destruct H as [_ H]; congruence.
  - apply regular_operation_ends.
Qed.

(** X11: when the repository cannot be opened, [main] prints the error and
    exits with status 1 in either mode, before it lists or reads anything. *)
Theorem repo_failure_exits_1 (E : Collaborators) (argv : list string)
    (w : World) (e : string) :
  repo_init E w = Some e ->
  main E argv w
  = (SysExit 1,
     put [line (Fore E RED +:+ "Error initializing Git repository: " +:+ e)] w).
Proof.
  intros H. unfold main. cbv zeta. rewrite regular_operation_cases.
  unfold init. rewrite H.
  match goal with |- context [if ?c then _ else _] => destruct c end;
    reflexivity.
Qed.

Lemma repo_failure_exits_1_witness :
  let E := scripted (Some "not a repository") (inr ["f.txt"]) unchanged
             unchanged None in
  let w := session {[ "f.txt" := scenario_file ]} ["q"] in
  main E ["git-simple-merge.py"] w
  = (SysExit 1,
     put [line (ansi RED +:+ "Error initializing Git repository: "
                +:+ "not a repository")] w).
Proof.
  intros E w.
  exact (repo_failure_exits_1 E ["git-simple-merge.py"] w "not a repository"
           eq_refl).
Defined.

(** X12: the regular run exits with status 0 when there is nothing to
    process, and also when listing the conflicted files failed: the
    [GitCommandError] is printed, then the message that no conflicted file
    was found, and the exit status is 0 all the same. *)
Theorem nothing_listed_exits_0 (E : Collaborators) (prog : string)
    (w : World) :
  repo_init E w = None ->
  (unmerged_paths E w = inr [] ->
   main E [prog] w
   = (SysExit 0,
      put [line (Fore E GREEN +:+ "No conflicted files found. Exiting.")] w))
  /\ (forall e, unmerged_paths E w = inl e ->
      main E [prog] w
      = (SysExit 0,
         put [line (Fore E RED +:+ "Error getting conflicted files: " +:+ e);
              line (Fore E GREEN +:+ "No conflicted files found. Exiting.")]
             w)).
Proof.
  intros Hinit.
  change (main E [prog] w) with (regular_operation E w).
  rewrite regular_operation_cases, Hinit. split.
  - intros ->. reflexivity.
  - intros e ->. reflexivity.
Qed.

Lemma nothing_listed_exits_0_witness :
  let E := scripted None (inl "index is locked") unchanged unchanged None in
  let w := session {[ "f.txt" := scenario_file ]} ["q"] in
  main E ["git-simple-merge.py"] w
  = (SysExit 0,
     put [line (ansi RED +:+ "Error getting conflicted files: "
                +:+ "index is locked");
          line (ansi GREEN +:+ "No conflicted files found. Exiting.")] w).
Proof.
  intros E w.
  exact (proj2 (nothing_listed_exits_0 E "git-simple-merge.py" w eq_refl)
           "index is locked" eq_refl).
Defined.

Lemma truthy_false (v : option string) : unset_or_empty v -> truthy v = false.
Proof. intros [->| ->]; reflexivity. Qed.

Lemma truthy_true (s : string) : s <> "" -> truthy (Some s) = true.
Proof. intros H. cbn. apply String.eqb_neq in H. rewrite H. reflexivity. Qed.

(** X13: [main] takes the mergetool path only when its first argument is
    [--mergetool] and each of [LOCAL], [BASE], [REMOTE] and [MERGED] is set to
    a non-empty string: with another first argument, or with one of the four
    unset or empty, it is the regular run. *)
Theorem mergetool_needs_flag_and_values (E : Collaborators) (prog a : string)
    (rest : list string) (w : World) :
  a <> "--mergetool"
  \/ unset_or_empty (environ w !! "LOCAL")
  \/ unset_or_empty (environ w !! "BASE")
  \/ unset_or_empty (environ w !! "REMOTE")
  \/ unset_or_empty (environ w !! "MERGED") ->
  main E (prog :: a :: rest) w = regular_operation E w.
Proof.
  intros H. unfold main. cbv zeta.
  destruct H as [Ha|[H|[H|[H|H]]]].
  - change ((prog :: a :: rest) !! 1%nat) with (Some a).
    rewrite (bool_decide_eq_false_2 (Some a = Some "--mergetool"))
      by congruence.
    rewrite andb_false_r. reflexivity.
  - rewrite (truthy_false _ H).
    repeat first [rewrite andb_false_r | progress cbn [andb]]. reflexivity.
  - rewrite (truthy_false _ H).
    repeat first [rewrite andb_false_r | progress cbn [andb]]. reflexivity.
  - rewrite (truthy_false _ H).
    repeat first [rewrite andb_false_r | progress cbn [andb]]. reflexivity.
  - rewrite (truthy_false _ H).
    repeat first [rewrite andb_false_r | progress cbn [andb]]. reflexivity.
Qed.

Lemma mergetool_needs_flag_and_values_witness :
  let E := calm ["f.txt"] in
  let w := {| environ := {[ "LOCAL" := "f.LOCAL"; "BASE" := "";
                             "REMOTE" := "f.REMOTE"; "MERGED" := "f.txt" ]};
              files := {[ "f.txt" := scenario_file ]};
              stdin := ["q"]; stdout := []; staged := [] |} in
  main E ["git-simple-merge.py"; "--mergetool"] w = regular_operation E w.
Proof.
  intros E w.
  apply (mergetool_needs_flag_and_values E "git-simple-merge.py"
           "--mergetool" [] w).
  right. right. left. right. reflexivity.
Defined.

Lemma main_mergetool_mode (E : Collaborators) (prog : string)
    (rest : list string) (w : World) (l b r m : string) :
  environ w !! "LOCAL" = Some l -> l <> "" ->
  environ w !! "BASE" = Some b -> b <> "" ->
  environ w !! "REMOTE" = Some r -> r <> "" ->
  environ w !! "MERGED" = Some m -> m <> "" ->
  main E (prog :: "--mergetool" :: rest) w
  = match init E w with
    | (Done resolver, w1) =>
        match process_file E m resolver w1 with
        | (Done _, _, w2) => (SysExit 0, w2)
        | (SysExit c, _, w2) => (SysExit c, w2)
        | (Raised e, _, w2) => (Raised e, w2)
        | (OutOfFuel, _, w2) => (OutOfFuel, w2)
        end
    | (SysExit c, w1) => (SysExit c, w1)
    | (Raised e, w1) => (Raised e, w1)
    | (OutOfFuel, w1) => (OutOfFuel, w1)
    end.
Proof.
  intros Hl Hl' Hb Hb' Hr Hr' Hm Hm'. unfold main. cbv zeta.
  rewrite Hl, Hb, Hr, Hm.
  rewrite !truthy_true by assumption.
  assert (Hlen : (1 <? len (prog :: "--mergetool" :: rest)) = true)
    by (apply Z.ltb_lt; unfold len; cbn [length]; lia).
  rewrite Hlen, bool_decide_eq_true_2 by reflexivity.
  reflexivity.
Qed.

(** X14: in mergetool mode (flag given, the four variables set and not
    empty) [main] never returns normally: it processes [MERGED] alone and then
    exits with status 0, unless that run exited or raised before; the list of
    conflicted files is not asked for.  So for a [MERGED] file without start
    marker the run is the one line that no hunk was found, then exit 0. *)
Theorem mergetool_never_returns (E : Collaborators) (prog : string)
    (rest : list string) (w : World) (l b r m : string) :
  environ w !! "LOCAL" = Some l -> l <> "" ->
  environ w !! "BASE" = Some b -> b <> "" ->
  environ w !! "REMOTE" = Some r -> r <> "" ->
  environ w !! "MERGED" = Some m -> m <> "" ->
  (forall u, (main E (prog :: "--mergetool" :: rest) w).1 <> Done u)
  /\ (forall paths,
        main E (prog :: "--mergetool" :: rest) w
        = main {| Fore := Fore E; repo_init := repo_init E;
                  unmerged_paths := fun _ => paths;
                  index_add := index_add E; run_editor := run_editor E;
                  run_vimdiff := run_vimdiff E;
                  ioerror_text := ioerror_text E |}
               (prog :: "--mergetool" :: rest) w)
  /\ (repo_init E w = None -> marker_free (files w) m ->
      exists out,
        main E (prog :: "--mergetool" :: rest) w
        = (SysExit 0,
           put (out ++ [line (Fore E YELLOW
                              +:+ "No conflict hunks found in this file.")])
               w)).
Proof.
  intros Hl Hl' Hb Hb' Hr Hr' Hm Hm'.
  split; [|split].
  - intros u.
    rewrite (main_mergetool_mode E prog rest w l b r m) by assumption.
    unfold init. destruct (repo_init E w); [discriminate|].
    destruct (process_file E m (new_resolver w) w) as [[[[]| |e|] r1] w1];
      discriminate.
  - intros paths.
    rewrite (main_mergetool_mode E prog rest w l b r m) by assumption.
    rewrite (main_mergetool_mode _ prog rest w l b r m) by assumption.
    reflexivity.
  - intros Hinit Hfree.
    rewrite (main_mergetool_mode E prog rest w l b r m) by assumption.
    unfold init. rewrite Hinit.
    destruct (process_file_marker_free E m (new_resolver w) w Hfree)
      as [out ->].
    exists out. reflexivity.
Qed.

Lemma mergetool_never_returns_witness :
  let E := calm [] in
  let w := {| environ := {[ "LOCAL" := "f.LOCAL"; "BASE" := "f.BASE";
                             "REMOTE" := "f.REMOTE"; "MERGED" := "f.txt" ]};
              files := {[ "f.txt" := [ln "a"; ln "b"] ]};
              stdin := ["q"]; stdout := []; staged := [] |} in
  exists out,
    main E ["git-simple-merge.py"; "--mergetool"] w
    = (SysExit 0,
       put (out ++ [line (ansi YELLOW
                          +:+ "No conflict hunks found in this file.")]) w).
Proof.
  intros E w.
  refine (proj2 (proj2 (mergetool_never_returns E "git-simple-merge.py" [] w
            "f.LOCAL" "f.BASE" "f.REMOTE" "f.txt"
            eq_refl _ eq_refl _ eq_refl _ eq_refl _)) eq_refl _);
    try discriminate.
  repeat constructor.
Defined.

(** ** The prompt, line by line *)

Lemma read_choice_skips (E : Collaborators) (self : Resolver)
    (bad : list string) (good : string) (rest : list string) :
  Forall (fun raw => in_options self (lower (strip raw)) = false) bad ->
  in_options self (lower (strip good)) = true ->
  read_choice E self (bad ++ good :: rest)
  = (Done (lower (strip good)), rest, rejected E bad).
Proof.
  intros Hbad Hgood. unfold rejected.
  induction bad as [|raw bad IH]; cbn [app read_choice flat_map].
  - rewrite Hgood. reflexivity.
  - apply Forall_cons in Hbad as [Hraw Hbad].
    rewrite Hraw, IH by assumption. reflexivity.
Qed.

Lemma read_choice_eof (E : Collaborators) (self : Resolver)
    (inp : list string) :
  Forall (fun raw => in_options self (lower (strip raw)) = false) inp ->
  read_choice E self inp = (Raised EOFError, [], rejected E inp).
Proof.
  intros H. unfold rejected.
  induction inp as [|raw inp IH]; cbn [read_choice flat_map]; [reflexivity|].
  apply Forall_cons in H as [Hraw H].
  rewrite Hraw, IH by assumption. reflexivity.
Qed.

(** X15: the prompt takes the first typed line that, stripped of white
    space and put in lower case, is one of the eight commands; each line
    before it is answered with the invalid-option message and a new prompt,
    and the lines after it are left to be read. *)
Theorem prompt_user_skips_invalid (E : Collaborators) (self : Resolver)
    (w : World) (bad : list string) (good : string) (rest : list string) :
  stdin w = bad ++ good :: rest ->
  Forall (fun raw => in_options self (lower (strip raw)) = false) bad ->
  in_options self (lower (strip good)) = true ->
  prompt_user E self w
  = (Done (lower (strip good)),
     set_stdin rest (put (menu E self ++ rejected E bad) w)).
Proof.
  intros Hin Hbad Hgood. unfold prompt_user.
  rewrite Hin, read_choice_skips by assumption. reflexivity.
Qed.

Lemma prompt_user_skips_invalid_witness :
  let E := calm ["f.txt"] in
  let w := session {[ "f.txt" := scenario_file ]} ["x"; ""; "keep"; " Q "; "o"] in
  prompt_user E (new_resolver w) w
  = (Done "q",
     set_stdin ["o"]
       (put (menu E (new_resolver w) ++ rejected E ["x"; ""; "keep"]) w)).
Proof.
  intros E w.
  apply (prompt_user_skips_invalid E (new_resolver w) w ["x"; ""; "keep"]
           " Q " ["o"]); [reflexivity | | reflexivity].
  repeat constructor.
Defined.

(** X16: when the typed lines run out at a prompt (every line left is
    not a command), the loop ends in the [EOFError] of [input], which nothing
    catches; the files and the index are as they were. *)
Theorem input_exhausted_raises (E : Collaborators) (attr : option method)
    (fuel : nat) (p : string) (hs : list ConflictHunk) (self : Resolver)
    (w : World) :
  Forall (fun raw => in_options self (lower (strip raw)) = false) (stdin w) ->
  exists w',
    controller_loop E attr (S fuel) p hs self w = (Raised EOFError, self, w')
    /\ files w' = files w /\ staged w' = staged w /\ stdin w' = [].
Proof.
  intros H. cbn [controller_loop]. unfold prompt_user.
  destruct (render_frame E p hs self w) as (Hf & Hs & Hstdin & _).
  rewrite read_choice_eof by (rewrite Hstdin; exact H).
  eexists. split; [reflexivity|]. cbn. auto.
Qed.

Lemma input_exhausted_raises_witness :
  let E := calm ["f.txt"] in
  let w := session {[ "f.txt" := scenario_file ]} ["x"; "yes"] in
  exists w',
    controller_loop E resolve_hunk 1 "f.txt" [scenario_hunk] (new_resolver w) w
    = (Raised EOFError, new_resolver w, w')
    /\ files w' = files w /\ staged w' = staged w /\ stdin w' = [].
Proof.
  intros E w.
  apply (input_exhausted_raises E resolve_hunk 0 "f.txt" [scenario_hunk]
           (new_resolver w) w).
  repeat constructor.
Defined.

(** ** The editor and vimdiff *)

Lemma dispatch_edit (E : Collaborators) (attr : option method) (p : string)
    (hs : list ConflictHunk) (self : Resolver) (w : World) :
  dispatch E attr p hs "e" self w
  = match run_editor E (editor self) p w with
    | Ran f =>
        match index_add E p (set_files f w) with
        | None =>
            (Done Break, self,
             put [line (Fore E CYAN +:+ "Manually edited and staged the file.")]
                 (stage p (set_files f w)))
        | Some e =>
            (Done Continue, self,
             put [line (Fore E RED +:+ "Error staging file: " +:+ e)]
                 (set_files f w))
        end
    | RunSubprocessError _ => (Raised SubprocessError, self, w)
    | RunOSError => (Raised OSError, self, w)
    end.
Proof. reflexivity. Qed.

Lemma dispatch_vimdiff (E : Collaborators) (attr : option method) (p : string)
    (hs : list ConflictHunk) (self : Resolver) (w : World) :
  dispatch E attr p hs "v" self w
  = match run_vimdiff E p w with
    | Ran f => (Done Continue, self, set_files f w)
    | RunSubprocessError e =>
        (Done Continue, self,
         put [line (Fore E RED +:+ "Error launching vimdiff: " +:+ e)] w)
    | RunOSError => (Raised OSError, self, w)
    end.
Proof.
  unfold dispatch, launch_vimdiff. cbn [String.eqb Ascii.eqb Bool.eqb].
  destruct (run_vimdiff E p w); reflexivity.
Qed.

Lemma dispatch_toggle (E : Collaborators) (attr : option method) (p : string)
    (hs : list ConflictHunk) (self : Resolver) (w : World) :
  let self' :=
    {| editor := editor self;
       view_mode := match view_mode self with FILE => HUNK | HUNK => FILE end;
       context_lines := context_lines self |} in
  dispatch E attr p hs "m" self w
  = (Done Continue, self',
     put [line (Fore E CYAN +:+ "Switched to "
                +:+ ViewMode_value (view_mode self') +:+ " view.")] w).
Proof. reflexivity. Qed.

(** X17: [e] runs the editor on the file and then stages the path; when
    staging succeeds the loop ends and [process_file] returns, with the path
    added once to the index and the files as the editor left them - whether or
    not a marker is still in the file. *)
Theorem edit_stages_and_ends (E : Collaborators) (attr : option method)
    (fuel : nat) (p : string) (hs : list ConflictHunk) (self : Resolver)
    (w : World) (raw : string) (rest : list string)
    (f : gmap string (list string)) :
  stdin w = raw :: rest -> lower (strip raw) = "e" ->
  let w2 := set_stdin rest
              (put (menu E self ++ [prompt_text]) (render E p hs self w)) in
  run_editor E (editor self) p w2 = Ran f ->
  index_add E p (set_files f w2) = None ->
  controller_loop E attr (S fuel) p hs self w
  = (Done tt, self,
     put [line (Fore E CYAN +:+ "Manually edited and staged the file.")]
         (stage p (set_files f w2)))
  /\ staged (stage p (set_files f w2)) = staged w ++ [p]
  /\ files (stage p (set_files f w2)) = f.
Proof.
  intros Hin Hc w2 Hed Hadd. subst w2.
  rewrite (controller_loop_turn E attr fuel p hs self w raw rest Hin)
    by (rewrite Hc; apply in_options_keys; set_solver).
  rewrite Hc, dispatch_edit, Hed, Hadd.
  split; [reflexivity|]. split; [|reflexivity].
  cbn [staged stage set_files set_stdin put].
  destruct (render_frame E p hs self w) as (_ & Hs & _). rewrite Hs.
  reflexivity.
Qed.

Lemma edit_stages_and_ends_witness :
  let E := calm ["f.txt"] in
  let w := session {[ "f.txt" := scenario_file ]} ["e"; "q"] in
  let run := controller_loop E resolve_hunk 1 "f.txt" [scenario_hunk]
               (new_resolver w) w in
  run.1.1 = Done tt /\ staged run.2 = ["f.txt"] /\ stdin run.2 = ["q"]
  /\ files run.2 !! "f.txt" = Some scenario_file.
Proof.
  intros E w run. subst run.
  rewrite (proj1 (edit_stages_and_ends E resolve_hunk 0 "f.txt"
                    [scenario_hunk] (new_resolver w) w "e" ["q"] (files w)
                    eq_refl eq_refl eq_refl eq_refl)).
  repeat split.
Defined.

(** X18: when staging fails after an edit, the error is printed and the
    loop goes round again with the hunks of the parse before the edit: the
    file is not read again for them, and nothing has been staged. *)
Theorem edit_staging_error_continues (E : Collaborators)
    (attr : option method) (fuel : nat) (p : string) (hs : list ConflictHunk)
    (self : Resolver) (w : World) (raw : string) (rest : list string)
    (f : gmap string (list string)) (e : string) :
  stdin w = raw :: rest -> lower (strip raw) = "e" ->
  let w2 := set_stdin rest
              (put (menu E self ++ [prompt_text]) (render E p hs self w)) in
  run_editor E (editor self) p w2 = Ran f ->
  index_add E p (set_files f w2) = Some e ->
  let w3 := put [line (Fore E RED +:+ "Error staging file: " +:+ e)]
                (set_files f w2) in
  controller_loop E attr (S fuel) p hs self w
  = controller_loop E attr fuel p hs self w3
  /\ staged w3 = staged w /\ files w3 = f /\ stdin w3 = rest.
Proof.
  intros Hin Hc w2 Hed Hadd w3. subst w3 w2.
  rewrite (controller_loop_turn E attr fuel p hs self w raw rest Hin)
    by (rewrite Hc; apply in_options_keys; set_solver).
  rewrite Hc, dispatch_edit, Hed, Hadd.
  split; [reflexivity|]. split; [|split; reflexivity].
  cbn [staged stage set_files set_stdin put].
  destruct (render_frame E p hs self w) as (_ & Hs & _). exact Hs.
Qed.

Lemma edit_staging_error_continues_witness :
  let E := scripted None (inr ["f.txt"]) unchanged unchanged
             (Some "index is locked") in
  let w := session {[ "f.txt" := scenario_file ]} ["e"; "q"] in
  let run := controller_loop E resolve_hunk 2 "f.txt" [scenario_hunk]
               (new_resolver w) w in
  run.1.1 = SysExit 0 /\ staged run.2 = [] /\ stdin run.2 = [].
Proof.
  intros E w run. subst run.
  rewrite (proj1 (edit_staging_error_continues E resolve_hunk 1 "f.txt"
                    [scenario_hunk] (new_resolver w) w "e" ["q"] (files w)
                    "index is locked" eq_refl eq_refl eq_refl eq_refl)).
  repeat split.
Defined.

(** X19: a launch that fails with an [OSError] (the program is not
    installed, say) is caught nowhere: after [v], and after [e], the loop ends
    in that exception, as it does after [e] for a [SubprocessError]; nothing
    is staged and no file is changed. *)
Theorem launch_failure_uncaught (E : Collaborators) (attr : option method)
    (fuel : nat) (p : string) (hs : list ConflictHunk) (self : Resolver)
    (w : World) (raw : string) (rest : list string) :
  stdin w = raw :: rest ->
  let w2 := set_stdin rest
              (put (menu E self ++ [prompt_text]) (render E p hs self w)) in
  (lower (strip raw) = "v" -> run_vimdiff E p w2 = RunOSError ->
   controller_loop E attr (S fuel) p hs self w = (Raised OSError, self, w2))
  /\ (lower (strip raw) = "e" -> run_editor E (editor self) p w2 = RunOSError ->
      controller_loop E attr (S fuel) p hs self w = (Raised OSError, self, w2))
  /\ (forall msg, lower (strip raw) = "e" ->
      run_editor E (editor self) p w2 = RunSubprocessError msg ->
      controller_loop E attr (S fuel) p hs self w
      = (Raised SubprocessError, self, w2))
  /\ files w2 = files w /\ staged w2 = staged w.
Proof.
  intros Hin w2. subst w2.
  split; [|split; [|split]].
  - intros Hc Hrun.
    rewrite (controller_loop_turn E attr fuel p hs self w raw rest Hin)
      by (rewrite Hc; apply in_options_keys; set_solver).
    rewrite Hc, dispatch_vimdiff, Hrun. reflexivity.
  - intros Hc Hrun.
    rewrite (controller_loop_turn E attr fuel p hs self w raw rest Hin)
      by (rewrite Hc; apply in_options_keys; set_solver).
    rewrite Hc, dispatch_edit, Hrun. reflexivity.
  - intros msg Hc Hrun.
    rewrite (controller_loop_turn E attr fuel p hs self w raw rest Hin)
      by (rewrite Hc; apply in_options_keys; set_solver).
    rewrite Hc, dispatch_edit, Hrun. reflexivity.
  - cbn [files staged set_stdin put].
    destruct (render_frame E p hs self w) as (Hf & Hs & _). auto.
Qed.

Lemma launch_failure_uncaught_witness :
  let E := scripted None (inr ["f.txt"]) unchanged (fun _ => RunOSError) None in
  let w := session {[ "f.txt" := scenario_file ]} ["v"; "q"] in
  (controller_loop E resolve_hunk 1 "f.txt" [scenario_hunk]
     (new_resolver w) w).1.1
  = Raised OSError.
Proof.
  intros E w.
  rewrite (proj1 (launch_failure_uncaught E resolve_hunk 0 "f.txt"
                    [scenario_hunk] (new_resolver w) w "v" ["q"] eq_refl)
             eq_refl eq_refl).
  reflexivity.
Defined.

(** X20: after [v] the loop goes round again with the resolver and the
    hunks it had, whether vimdiff ran or failed with a [SubprocessError]
    (which is printed); the path is not staged, and the hunks are not read
    again from the file vimdiff may have changed. *)
Theorem vimdiff_keeps_hunks (E : Collaborators) (attr : option method)
    (fuel : nat) (p : string) (hs : list ConflictHunk) (self : Resolver)
    (w : World) (raw : string) (rest : list string) :
  stdin w = raw :: rest -> lower (strip raw) = "v" ->
  let w2 := set_stdin rest
              (put (menu E self ++ [prompt_text]) (render E p hs self w)) in
  (forall f, run_vimdiff E p w2 = Ran f ->
     controller_loop E attr (S fuel) p hs self w
     = controller_loop E attr fuel p hs self (set_files f w2))
  /\ (forall msg, run_vimdiff E p w2 = RunSubprocessError msg ->
      controller_loop E attr (S fuel) p hs self w
      = controller_loop E attr fuel p hs self
          (put [line (Fore E RED +:+ "Error launching vimdiff: " +:+ msg)] w2))
  /\ staged w2 = staged w.
Proof.
  intros Hin Hc w2. subst w2.
  rewrite (controller_loop_turn E attr fuel p hs self w raw rest Hin)
    by (rewrite Hc; apply in_options_keys; set_solver).
  rewrite Hc, dispatch_vimdiff.
  split; [|split].
  - intros f ->. reflexivity.
  - intros msg ->. reflexivity.
  - cbn [staged set_stdin put].
    destruct (render_frame E p hs self w) as (_ & Hs & _). exact Hs.
Qed.

Lemma vimdiff_keeps_hunks_witness :
  let E := scripted None (inr ["f.txt"])
             unchanged (fun w => Ran (<["f.txt" := [ln "merged"]]> (files w)))
             None in
  let w := session {[ "f.txt" := scenario_file ]} ["v"; "m"; "q"] in
  let w2 := set_stdin ["m"; "q"]
              (put (menu E (new_resolver w) ++ [prompt_text])
                   (render E "f.txt" [scenario_hunk] (new_resolver w) w)) in
  controller_loop E resolve_hunk 3 "f.txt" [scenario_hunk] (new_resolver w) w
  = controller_loop E resolve_hunk 2 "f.txt" [scenario_hunk] (new_resolver w)
      (set_files (<["f.txt" := [ln "merged"]]> (files w)) w2).
Proof.
  intros E w w2.
  exact (proj1 (vimdiff_keeps_hunks E resolve_hunk 2 "f.txt" [scenario_hunk]
                  (new_resolver w) w "v" ["m"; "q"] eq_refl eq_refl)
           (<["f.txt" := [ln "merged"]]> (files w)) eq_refl).
Defined.

(** X21: [m] twice brings the view mode back: after two toggles the loop
    goes on with the resolver it had, and neither a file nor the index has
    been touched. *)
Theorem toggle_twice_restores (E : Collaborators) (attr : option method)
    (fuel : nat) (p : string) (hs : list ConflictHunk) (self : Resolver)
    (w : World) (r1 r2 : string) (rest : list string) :
  stdin w = r1 :: r2 :: rest ->
  lower (strip r1) = "m" -> lower (strip r2) = "m" ->
  exists w',
    controller_loop E attr (S (S fuel)) p hs self w
    = controller_loop E attr fuel p hs self w'
    /\ files w' = files w /\ staged w' = staged w /\ stdin w' = rest.
Proof.
  intros Hin H1 H2.
  rewrite (controller_loop_turn E attr (S fuel) p hs self w r1 (r2 :: rest) Hin)
    by (rewrite H1; apply in_options_keys; set_solver).
  rewrite H1, dispatch_toggle. cbv zeta.
  match goal with
  | |- context [controller_loop E attr (S fuel) p hs ?s ?w1] =>
      rewrite (controller_loop_turn E attr fuel p hs s w1 r2 rest eq_refl)
        by (rewrite H2; apply in_options_keys; set_solver)
  end.
  rewrite H2, dispatch_toggle. cbv zeta.
  cbn [view_mode editor context_lines].
  assert (Hself : {| editor := editor self;
                     view_mode :=
                       match
                         match view_mode self with FILE => HUNK | HUNK => FILE end
                       with FILE => HUNK | HUNK => FILE end;
                     context_lines := context_lines self |} = self).
  { destruct self as [ed [|] cl]; reflexivity. }
  rewrite Hself.
  eexists. split; [reflexivity|].
  destruct (render_frame E p hs self w) as (Hf & Hs & _).
  match goal with
  | |- context [render E p hs ?s (put ?o (set_stdin ?i (put ?o' ?w1)))] =>
      destruct (render_frame E p hs s (put o (set_stdin i (put o' w1))))
        as (Hf' & Hs' & _)
  end.
  cbn [files staged stdin set_stdin put] in *.
  rewrite Hf', Hs'. auto.
Qed.

Lemma toggle_twice_restores_witness :
  let E := calm ["f.txt"] in
  let w := session {[ "f.txt" := scenario_file ]} ["m"; "M"; "q"] in
  exists w',
    controller_loop E resolve_hunk 3 "f.txt" [scenario_hunk] (new_resolver w) w
    = controller_loop E resolve_hunk 1 "f.txt" [scenario_hunk]
        (new_resolver w) w'
    /\ files w' = files w /\ staged w' = staged w /\ stdin w' = ["q"].
Proof.
  intros E w.
  apply (toggle_twice_restores E resolve_hunk 1 "f.txt" [scenario_hunk]
           (new_resolver w) w "m" "M" ["q"]); reflexivity.
Defined.

(** ** What a run can change *)

Lemma read_choice_consumes (E : Collaborators) (self : Resolver)
    (inp : list string) :
  match read_choice E self inp with
  | (Done c, rest, _) =>
      exists pre raw, inp = pre ++ raw :: rest /\ c = lower (strip raw)
  | (_, rest, _) => rest = []
  end.
Proof.
  induction inp as [|raw inp IH]; cbn [read_choice]; [reflexivity|].
  destruct (in_options self (lower (strip raw))).
  - exists [], raw. split; reflexivity.
  - destruct (read_choice E self inp) as [[[c| |e|] rest] printed];
      cbv beta iota in *; try assumption.
    destruct IH as (pre & raw' & -> & ->).
    exists (raw :: pre), raw'. split; reflexivity.
Qed.

Lemma dispatch_frame (E : Collaborators) (p : string) (hs : list ConflictHunk)
    (c : string) (self : Resolver) (w : World) :
  c <> "e" -> c <> "v" ->
  let '(r, self', w') := dispatch E resolve_hunk p hs c self w in
  files w' = files w /\ staged w' = staged w /\ stdin w' = stdin w.
Proof.
  intros He Hv. apply String.eqb_neq in He, Hv.
  unfold dispatch, call_resolve_hunk, resolve_hunk.
  destruct (String.eqb c "q"); [cbn; auto|].
  destruct (String.eqb c "m"); [cbn; auto|].
  destruct (String.eqb c "c"); [cbn; auto|].
  rewrite Hv, He. cbn. auto.
Qed.

Lemma controller_loop_frame (E : Collaborators) (p : string)
    (hs : list ConflictHunk) :
  forall (fuel : nat) (self : Resolver) (w : World),
  Forall leaves_files (stdin w) ->
  let '(r, self', w') := controller_loop E resolve_hunk fuel p hs self w in
  files w' = files w /\ staged w' = staged w /\ Forall leaves_files (stdin w').
Proof.
  induction fuel as [|fuel IH]; intros self w Hall; cbn [controller_loop];
    [auto|].
  destruct (render_frame E p hs self w) as (Hf & Hs & Hstdin & _).
  unfold prompt_user.
  pose proof (read_choice_consumes E self (stdin (render E p hs self w))) as Hrc.
  destruct (read_choice E self (stdin (render E p hs self w)))
    as [[[c| |e|] rest] printed]; cbv beta iota in Hrc.
  2-4: subst rest; cbn [files staged stdin set_stdin put];
       rewrite Hf, Hs; repeat split; constructor.
  destruct Hrc as (pre & raw & Hsplit & ->).
  rewrite Hstdin in Hsplit. rewrite Hsplit in Hall.
  apply Forall_app in Hall as [_ Hall].
  apply Forall_cons in Hall as [[He Hv] Hrest].
  set (w2 := set_stdin rest
               (put (menu E self ++ printed) (render E p hs self w))).
  assert (Hw2 : files w2 = files w /\ staged w2 = staged w /\ stdin w2 = rest).
  { subst w2. cbn [files staged stdin set_stdin put]. auto. }
  destruct Hw2 as (Hf2 & Hs2 & Hi2).
  pose proof (dispatch_frame E p hs (lower (strip raw)) self w2 He Hv) as Hd.
  destruct (dispatch E resolve_hunk p hs (lower (strip raw)) self w2)
    as [[[[|]| |e|] self1] w3]; destruct Hd as (Hf3 & Hs3 & Hi3).
  - assert (Hrest3 : Forall leaves_files (stdin w3))
      by (rewrite Hi3, Hi2; exact Hrest).
    specialize (IH self1 w3 Hrest3).
    destruct (controller_loop E resolve_hunk fuel p hs self1 w3)
      as [[r self2] w4].
    destruct IH as (Hf4 & Hs4 & Hi4).
    split; [congruence|]. split; [congruence | exact Hi4].
  - split; [congruence|]. split; [congruence|]. rewrite Hi3, Hi2. exact Hrest.
  - split; [congruence|]. split; [congruence|]. rewrite Hi3, Hi2. exact Hrest.
  - split; [congruence|]. split; [congruence|]. rewrite Hi3, Hi2. exact Hrest.
  - split; [congruence|]. split; [congruence|]. rewrite Hi3, Hi2. exact Hrest.
Qed.

Lemma process_file_frame (E : Collaborators) (p : string) (self : Resolver)
    (w : World) :
  Forall leaves_files (stdin w) ->
  let '(r, self', w') := process_file E p self w in
  files w' = files w /\ staged w' = staged w /\ Forall leaves_files (stdin w').
Proof.
  intros Hall. unfold process_file, process_file_with, get_conflicts.
  destruct (get_file_content E p w) as [content printed].
  destruct (parse_conflicts_total (context_lines self) content) as [hs ->].
  destruct hs as [|h hs].
  - cbn [files staged stdin put]. auto.
  - exact (controller_loop_frame E p (h :: hs)
             (S (length (stdin (put printed w)))) self (put printed w) Hall).
Qed.

(** X22: unless one of the typed lines is the command [e] or [v], a run of
    [main] leaves every file and the index as they were, however it ends:
    the program itself writes no file and stages nothing; only the editor,
    vimdiff and the staging that follows an edit do. *)
Theorem files_untouched_without_edit (E : Collaborators) (argv : list string)
    (w : World) :
  Forall leaves_files (stdin w) ->
  files (main E argv w).2 = files w /\ staged (main E argv w).2 = staged w.
Proof.
  intros Hall. unfold main. cbv zeta.
  match goal with |- context [if ?c then _ else _] => destruct c end.
  - unfold init. destruct (repo_init E w) as [e|]; [split; reflexivity|].
    pose proof (process_file_frame E (default "" (environ w !! "MERGED"))
                  (new_resolver w) w Hall) as H.
    destruct (process_file E (default "" (environ w !! "MERGED"))
                (new_resolver w) w) as [[[[]| |e|] r1] w1];
      destruct H as (Hf & Hs & _); cbn [snd]; auto.
  - rewrite regular_operation_cases.
    destruct (repo_init E w) as [e|]; [split; reflexivity|].
    destruct (unmerged_paths E w) as [e|[|key keys]]; split; reflexivity.
Qed.

Lemma files_untouched_without_edit_witness :
  let E := scripted None (inr ["f.txt"])
             (fun w => Ran (<["f.txt" := []]> (files w)))
             (fun w => Ran (<["f.txt" := []]> (files w))) None in
  let w := mergetool_session {[ "f.txt" := scenario_file ]} "f.txt"
             ["m"; "c"; "x"; "o"] in
  files (main E mergetool_argv w).2 = files w
  /\ staged (main E mergetool_argv w).2 = staged w.
Proof.
  intros E w.
  apply (files_untouched_without_edit E mergetool_argv w).
  repeat (constructor;
          [split; intros H; vm_compute in H; discriminate H|]).
  constructor.
Defined.

(** ** The file view *)

Lemma file_view_cons (E : Collaborators) (i : Z) (b : bool) (l : string)
    (rest : list string) :
  exists c b',
    file_view_lines E i b (l :: rest)
    = numbered E c i l :: file_view_lines E (i + 1) b' rest
    /\ c ∈ view_colours
    /\ (is_start l = true -> c = RED)
    /\ (c = YELLOW -> is_separator l = true)
    /\ (c = GREEN -> is_end l = true)
    /\ (c = RESET_ALL -> b = false /\ b' = false).
Proof.
  cbn [file_view_lines]. unfold is_start, is_separator, is_end, view_colours.
  destruct (startswith l "<<<<<<<") eqn:Hopen.
  { exists RED, true. split; [reflexivity|]. split; [set_solver|].
    repeat split; intros; congruence. }
  destruct (startswith l "=======") eqn:Hsep; destruct b; cbn [andb].
  - exists YELLOW, true. split; [reflexivity|]. split; [set_solver|].
    repeat split; intros; congruence.
  - destruct (startswith l ">>>>>>>"); cbn [andb];
      exists RESET_ALL, false; (split; [reflexivity|]); (split; [set_solver|]);
      repeat split; intros; congruence.
  - destruct (startswith l ">>>>>>>") eqn:Hend; cbn [andb].
    + exists GREEN, false. split; [reflexivity|]. split; [set_solver|].
      repeat split; intros; congruence.
    + exists RED, true. split; [reflexivity|]. split; [set_solver|].
      repeat split; intros; congruence.
  - destruct (startswith l ">>>>>>>"); cbn [andb];
      exists RESET_ALL, false; (split; [reflexivity|]); (split; [set_solver|]);
      repeat split; intros; congruence.
Qed.

(** X24: a file in which no line begins with the start token is printed
    plain: every line in the reset colour, numbered from the first index. *)
Theorem file_view_marker_free (E : Collaborators) (content : list string) :
  forall (i : Z),
  Forall (fun l => is_start l = false) content ->
  file_view_lines E i false content
  = imap (fun j l => numbered E RESET_ALL (i + Z.of_nat j) l) content.
Proof.
  induction content as [|l rest IH]; intros i H; [reflexivity|].
  apply Forall_cons in H as [Hl H]. unfold is_start in Hl.
  cbn [file_view_lines imap]. rewrite Hl, !andb_false_r.
  f_equal; [f_equal; lia|].
  rewrite IH by assumption. apply imap_ext. intros j x _.
  cbn. f_equal. lia.
Qed.

Lemma file_view_marker_free_witness :
  file_view_lines (calm []) 1 false [ln "a"; ln "======="; ln "b"]
  = imap (fun j l => numbered (calm []) RESET_ALL (1 + Z.of_nat j) l)
         [ln "a"; ln "======="; ln "b"].
Proof.
  apply (file_view_marker_free (calm []) [ln "a"; ln "======="; ln "b"] 1).
  repeat constructor.
Defined.

(** ** The context size and the sides *)

Lemma scan_step_bare (k k' : Z) (content : list string) (i : Z) (l : string)
    (st1 st2 : scan_state) :
  bare_state st1 = bare_state st2 ->
  same_scan (scan_step k content i l st1) (scan_step k' content i l st2).
Proof.
  intros H.
  pose proof (f_equal hunks H) as Hh.
  pose proof (f_equal current_hunk H) as Hc.
  pose proof (f_equal state H) as Hs.
  pose proof (f_equal hunk_start H) as Hst.
  cbn [bare_state hunks current_hunk state hunk_start] in Hh, Hc, Hs, Hst.
  unfold scan_step, context_at. rewrite <- Hs, <- Hst.
  destruct (current_hunk st1) as [h1|], (current_hunk st2) as [h2|];
    cbn [option_map] in Hc; try discriminate Hc.
  - assert (Hb : bare h1 = bare h2) by congruence. clear Hc.
    unfold bare in Hb.
    pose proof (f_equal header Hb) as Hb1.
    pose proof (f_equal ours Hb) as Hb2.
    pose proof (f_equal theirs Hb) as Hb3.
    pose proof (f_equal start_line Hb) as Hb4.
    cbn [header ours theirs start_line] in Hb1, Hb2, Hb3, Hb4.
    destruct (startswith l "<<<<<<<").
    { destruct (hunk_start st1); cbn [mbind outcome_bind obind same_scan];
        [|reflexivity].
      unfold bare_state. scan_simpl. rewrite !map_app, Hh. cbn [map option_map].
      unfold bare. scan_simpl. rewrite Hb1, Hb2, Hb3, Hb4. reflexivity. }
    destruct (startswith l "=======" && bool_decide (state st1 = Some Ours)).
    { cbn [same_scan]. unfold bare_state. scan_simpl. rewrite Hh.
      cbn [option_map]. unfold bare. rewrite Hb1, Hb2, Hb3, Hb4. reflexivity. }
    destruct (startswith l ">>>>>>>" && bool_decide (state st1 = Some Theirs)).
    { destruct (hunk_start st1); cbn [mbind outcome_bind obind same_scan];
        [|reflexivity].
      unfold bare_state. scan_simpl. rewrite !map_app, Hh. cbn [map option_map].
      unfold bare. scan_simpl. rewrite Hb1, Hb2, Hb3, Hb4. reflexivity. }
    destruct (state st1) as [[|]|]; cbn [same_scan]; [| |exact H];
      unfold bare_state; scan_simpl; rewrite Hh; cbn [option_map];
      unfold bare; scan_simpl; rewrite Hb1, Hb2, Hb3, Hb4; reflexivity.
  - destruct (startswith l "<<<<<<<").
    { cbn [same_scan]. unfold bare_state. scan_simpl. rewrite Hh. reflexivity. }
    destruct (startswith l "=======" && bool_decide (state st1 = Some Ours)).
    { cbn [same_scan]. unfold bare_state. scan_simpl. rewrite Hh. reflexivity. }
    destruct (startswith l ">>>>>>>" && bool_decide (state st1 = Some Theirs)).
    { cbn [same_scan]. unfold bare_state. scan_simpl. rewrite Hh. reflexivity. }
    destruct (state st1) as [[|]|]; cbn [same_scan]; exact H.
Qed.

Lemma scan_loop_bare (k k' : Z) (content ls : list string) :
  forall (i : Z) (st1 st2 : scan_state),
  bare_state st1 = bare_state st2 ->
  same_scan (scan_loop k content i ls st1) (scan_loop k' content i ls st2).
Proof.
  induction ls as [|l ls IH]; intros i st1 st2 H; cbn [scan_loop].
  - exact H.
  - pose proof (scan_step_bare k k' content i l st1 st2 H) as Hstep.
    destruct (scan_step k content i l st1) as [a| |e|],
             (scan_step k' content i l st2) as [b| |e'|];
      cbn [same_scan] in Hstep; try contradiction;
      cbn [mbind outcome_bind obind].
    + apply IH. exact Hstep.
    + exact Hstep.
Qed.

Lemma map_bare_same (hs : list ConflictHunk) :
  forall hs', map bare hs = map bare hs' -> Forall2 same_sides hs hs'.
Proof.
  induction hs as [|h hs IH]; intros [|h' hs'] H; cbn [map] in H;
    try discriminate H; [constructor|].
  pose proof (f_equal (fun l => match l with x :: _ => Some x | [] => None end)
                H) as Hx.
  pose proof (f_equal (@tl ConflictHunk) H) as Ht.
  cbn [tl] in Ht. cbv beta iota in Hx.
  assert (Hb : bare h = bare h') by congruence.
  constructor; [|apply IH; exact Ht].
  unfold same_sides.
  pose proof (f_equal header Hb). pose proof (f_equal ours Hb).
  pose proof (f_equal theirs Hb). pose proof (f_equal start_line Hb).
  auto.
Qed.

(** X25: the context size decides the context of the hunks and nothing
    else: parsed at two sizes, a file gives as many hunks, with the same
    header, the same ours and theirs lines and the same [start_line], one by
    one. *)
Theorem context_size_only_sets_context (k k' : Z) (content : list string) :
  exists hs hs',
    parse_conflicts k content = Done hs
    /\ parse_conflicts k' content = Done hs'
    /\ Forall2 same_sides hs hs'.
Proof.
  destruct (parse_conflicts_total k content) as [hs Hhs].
  destruct (parse_conflicts_total k' content) as [hs' Hhs'].
  exists hs, hs'. split; [exact Hhs|]. split; [exact Hhs'|].
  unfold parse_conflicts in Hhs, Hhs'.
  pose proof (scan_loop_bare k k' content content 0 scan_init scan_init eq_refl)
    as H.
  destruct (scan_loop k content 0 content scan_init) as [a| |e|];
    try discriminate Hhs.
  destruct (scan_loop k' content 0 content scan_init) as [b| |e'|];
    try discriminate Hhs'.
  cbn [same_scan] in H. cbn [mbind outcome_bind obind] in Hhs, Hhs'.
  apply Done_inj in Hhs, Hhs'. subst hs hs'.
  apply map_bare_same. exact (f_equal hunks H).
Qed.

(** ** Instances of the counting and ordering properties *)


Lemma hunks_in_file_order_witness :
  exists hs spans,
    parse_conflicts 3 deep_file = Done hs
    /\ Forall2 (hunk_at 3 deep_file) hs spans
    /\ ordered_spans 0 spans (len deep_file)
    /\ (forall s e, (s, e) ∈ spans -> 0 <= s /\ s < e /\ e <= len deep_file).
Proof. exact (hunks_in_file_order 3 deep_file). Defined.

(** * Runs that reach the prompt *)

(** ** From [process_file] into its loop *)

Lemma in_options_false (self : Resolver) (c : string) :
  c ∉ option_keys -> in_options self c = false.
Proof. intros H. unfold in_options. apply bool_decide_eq_false. exact H. Qed.

(** One turn of the loop when the first command typed comes after lines
    that are none. *)
Lemma controller_loop_first (E : Collaborators) (attr : option method)
    (fuel : nat) (p : string) (hs : list ConflictHunk) (self : Resolver)
    (w : World) (bad : list string) (raw : string) (rest : list string) :
  stdin w = bad ++ raw :: rest ->
  Forall (fun r => in_options self (lower (strip r)) = false) bad ->
  in_options self (lower (strip raw)) = true ->
  controller_loop E attr (S fuel) p hs self w
  = match dispatch E attr p hs (lower (strip raw)) self
            (set_stdin rest
               (put (menu E self ++ rejected E bad) (render E p hs self w))) with
    | (Done Continue, self', w3) => controller_loop E attr fuel p hs self' w3
    | (Done Break, self', w3) => (Done tt, self', w3)
    | (SysExit c, self', w3) => (SysExit c, self', w3)
    | (Raised e, self', w3) => (Raised e, self', w3)
    | (OutOfFuel, self', w3) => (OutOfFuel, self', w3)
    end.
Proof.
  intros Hin Hbad Hopt. cbn [controller_loop]. unfold prompt_user.
  destruct (render_frame E p hs self w) as (_ & _ & Hstdin & _).
  rewrite Hstdin, Hin, read_choice_skips by assumption. reflexivity.
Qed.

(** A file with a hunk takes [process_file] into the loop, with one turn
    for each line typed, and one more. *)
Lemma process_file_enters_loop (E : Collaborators) (p : string)
    (self : Resolver) (w : World) (content : list string) (h : ConflictHunk)
    (hs : list ConflictHunk) :
  files w !! p = Some content ->
  parse_conflicts (context_lines self) content = Done (h :: hs) ->
  process_file E p self w
  = controller_loop E resolve_hunk (S (length (stdin w))) p (h :: hs) self w.
Proof.
  intros Hf Hp.
  unfold process_file, process_file_with, get_conflicts, get_file_content.
  rewrite Hf. cbv beta iota zeta. rewrite Hp, put_nil. reflexivity.
Qed.

(** The parse of one well-formed block. *)
Lemma parse_single_block (k : Z) (pre os ts post : list string)
    (start sep end_ : string) :
  well_formed_block pre start os sep ts end_ post ->
  parse_conflicts k (pre ++ [start] ++ os ++ [sep] ++ ts ++ [end_] ++ post)
  = Done [block_hunk k pre start os sep ts end_ post].
Proof.
  intros (Hpre & Hstart & Hos & Hsep & Hts & Hend & Hpost).
  unfold parse_conflicts.
  rewrite (scan_single_block k _ pre os ts post start sep end_ 0)
    by assumption.
  reflexivity.
Qed.

(** [o], [t] and [s], typed as the first command at the prompt of a file
    with a hunk, end [process_file] and the loop over the files in the
    [AttributeError] of line 230. *)
Lemma keep_or_skip_ends_file (E : Collaborators) (p : string)
    (self : Resolver) (w : World) (content : list string) (h : ConflictHunk)
    (hs : list ConflictHunk) (bad : list string) (raw : string)
    (rest : list string) :
  files w !! p = Some content ->
  parse_conflicts (context_lines self) content = Done (h :: hs) ->
  stdin w = bad ++ raw :: rest ->
  Forall (fun r => in_options self (lower (strip r)) = false) bad ->
  lower (strip raw) ∈ ["o"; "t"; "s"] ->
  exists w',
    process_file E p self w
    = (Raised (AttributeError "GitConflictResolver" "resolve_hunk"), self, w')
    /\ files w' = files w /\ staged w' = staged w /\ stdin w' = rest
    /\ forall ps,
         process_files E (p :: ps) self w
         = (Raised (AttributeError "GitConflictResolver" "resolve_hunk"),
            self, w').
Proof.
  intros Hf Hp Hin Hbad Hc.
  assert (Hopt : in_options self (lower (strip raw)) = true).
  { apply in_options_keys.
    repeat (apply elem_of_cons in Hc as [->|Hc]);
      [set_solver | set_solver | set_solver | inversion Hc]. }
  assert (Hrun : exists w',
    process_file E p self w
    = (Raised (AttributeError "GitConflictResolver" "resolve_hunk"), self, w')
    /\ files w' = files w /\ staged w' = staged w /\ stdin w' = rest).
  { rewrite (process_file_enters_loop E p self w content h hs Hf Hp).
    rewrite (controller_loop_first E resolve_hunk _ p (h :: hs) self w bad raw
               rest Hin Hbad Hopt).
    rewrite dispatch_missing_method by assumption.
    eexists. split; [reflexivity|].
    destruct (render_frame E p (h :: hs) self w) as (Hfr & Hsr & _).
    cbn [files staged stdin set_stdin put]. auto. }
  destruct Hrun as (w' & Hrun & Hfw & Hsw & Hiw).
  exists w'. split; [exact Hrun|]. split; [exact Hfw|]. split; [exact Hsw|].
  split; [exact Hiw|].
  intros ps. apply process_files_stops; [exact Hrun | discriminate].
Qed.

(** ** Keeping a side and skipping *)

(** C1: on every well-formed single-hunk file, [o] or [t] typed as the
    first command at the prompt ends [process_file] in the [AttributeError] of
    line 230, [self.resolve_hunk] being defined nowhere: the file is as it
    was and nothing is staged.  Run as a merge tool on the scenario file, the
    program prints the view and the prompt, reads the command and raises; the
    file still holds its three marker lines and both bodies, where the claim
    has it rewritten to the side chosen. *)
Theorem keep_side_raises (E : Collaborators) :
  (forall p self w pre start os sep ts end_ post bad raw rest,
     well_formed_block pre start os sep ts end_ post ->
     files w !! p = Some (pre ++ [start] ++ os ++ [sep] ++ ts ++ [end_] ++ post) ->
     stdin w = bad ++ raw :: rest ->
     Forall (fun r => in_options self (lower (strip r)) = false) bad ->
     lower (strip raw) = "o" \/ lower (strip raw) = "t" ->
     exists w',
       process_file E p self w
       = (Raised (AttributeError "GitConflictResolver" "resolve_hunk"),
          self, w')
       /\ files w' = files w /\ staged w' = staged w /\ stdin w' = rest)
  /\ (let run c :=
        main (calm []) mergetool_argv
          (mergetool_session {[ "f.txt" := scenario_file ]} "f.txt" [c]) in
      (run "o").1
      = Raised (AttributeError "GitConflictResolver" "resolve_hunk")
      /\ files (run "o").2 !! "f.txt" = Some scenario_file
      /\ stdin (run "o").2 = []
      /\ last (stdout (run "o").2) = Some prompt_text
      /\ (run "t").1
         = Raised (AttributeError "GitConflictResolver" "resolve_hunk")
      /\ files (run "t").2 !! "f.txt" = Some scenario_file
      /\ stdin (run "t").2 = []
      /\ last (stdout (run "t").2) = Some prompt_text
      /\ scenario_file <> [ln "a"; ln "x"; ln "b"]
      /\ scenario_file <> [ln "a"; ln "y"; ln "b"]).
Proof.
  split.
  - intros p self w pre start os sep ts end_ post bad raw rest
      Hblock Hf Hin Hbad Hc.
    destruct (keep_or_skip_ends_file E p self w _ _ []
                bad raw rest Hf
                (parse_single_block (context_lines self) pre os ts post
                   start sep end_ Hblock)
                Hin Hbad) as (w' & Hrun & Hfw & Hsw & Hiw & _).
    { destruct Hc as [-> | ->]; set_solver. }
    exists w'. auto.
  - vm_compute. repeat split; discriminate.
Qed.

Lemma keep_side_raises_witness :
  let w := session {[ "f.txt" := scenario_file ]} ["keep ours"; " O "; "q"] in
  exists w',
    process_file (calm []) "f.txt" (new_resolver w) w
    = (Raised (AttributeError "GitConflictResolver" "resolve_hunk"),
       new_resolver w, w')
    /\ files w' = files w /\ staged w' = staged w /\ stdin w' = ["q"].
Proof.
  intros w.
  apply (proj1 (keep_side_raises (calm [])) "f.txt" (new_resolver w) w
           [ln "a"] (ln "<<<<<<< HEAD") [ln "x"] (ln "=======") [ln "y"]
           (ln ">>>>>>> branch") [ln "b"] ["keep ours"] " O " ["q"]).
  - unfold well_formed_block. repeat split; repeat constructor.
  - reflexivity.
  - reflexivity.
  - repeat constructor.
  - left. reflexivity.
Defined.

(** C2: [s] typed as the first command at the prompt of a file with a
    hunk leaves every file as it is, but does not move on: [process_file] and
    with it the loop over the files end in the [AttributeError] of line 230,
    whatever files come after, and the lines typed for them are not read.
    With two files of the scenario and [s], [q] typed, only the first file is
    shown and [q] is left unread. *)
Theorem skip_raises (E : Collaborators) :
  (forall p ps self w content h hs bad raw rest,
     files w !! p = Some content ->
     parse_conflicts (context_lines self) content = Done (h :: hs) ->
     stdin w = bad ++ raw :: rest ->
     Forall (fun r => in_options self (lower (strip r)) = false) bad ->
     lower (strip raw) = "s" ->
     exists w',
       process_file E p self w
       = (Raised (AttributeError "GitConflictResolver" "resolve_hunk"),
          self, w')
       /\ process_files E (p :: ps) self w
          = (Raised (AttributeError "GitConflictResolver" "resolve_hunk"),
             self, w')
       /\ files w' = files w /\ staged w' = staged w /\ stdin w' = rest)
  /\ (let w := session {[ "f.txt" := scenario_file; "g.txt" := scenario_file ]}
                 ["s"; "q"] in
      let run := process_files (calm []) ["f.txt"; "g.txt"] (new_resolver w) w in
      run.1.1 = Raised (AttributeError "GitConflictResolver" "resolve_hunk")
      /\ files run.2 = files w
      /\ stdin run.2 = ["q"]
      /\ List.filter (fun s => startswith s (NL +:+ ansi BLUE +:+ "File: "))
           (stdout run.2)
         = [line (NL +:+ ansi BLUE +:+ "File: f.txt")])
  /\ (let run :=
        main (calm []) mergetool_argv
          (mergetool_session {[ "f.txt" := scenario_file ]} "f.txt" ["s"]) in
      run.1 = Raised (AttributeError "GitConflictResolver" "resolve_hunk")
      /\ files run.2 !! "f.txt" = Some scenario_file
      /\ stdin run.2 = []).
Proof.
  split; [|split].
  - intros p ps self w content h hs bad raw rest Hf Hp Hin Hbad Hc.
    destruct (keep_or_skip_ends_file E p self w content h hs bad raw rest
                Hf Hp Hin Hbad) as (w' & Hrun & Hfw & Hsw & Hiw & Hall).
    { rewrite Hc. set_solver. }
    exists w'. split; [exact Hrun|]. split; [apply Hall|]. auto.
  - vm_compute. repeat split.
  - vm_compute. repeat split.
Qed.

Lemma skip_raises_witness :
  let w := session {[ "f.txt" := scenario_file; "g.txt" := scenario_file ]}
             ["?"; "S"; "q"] in
  exists w',
    process_file (calm []) "f.txt" (new_resolver w) w
    = (Raised (AttributeError "GitConflictResolver" "resolve_hunk"),
       new_resolver w, w')
    /\ process_files (calm []) ["f.txt"; "g.txt"] (new_resolver w) w
       = (Raised (AttributeError "GitConflictResolver" "resolve_hunk"),
          new_resolver w, w')
    /\ files w' = files w /\ staged w' = staged w /\ stdin w' = ["q"].
Proof.
  intros w.
  apply (proj1 (skip_raises (calm [])) "f.txt" ["g.txt"] (new_resolver w) w
           scenario_file scenario_hunk [] ["?"] "S" ["q"]);
    try reflexivity.
  repeat constructor.
Defined.

(** ** More context, in a run *)

(** C4: run as a merge tool on a file with five lines above its hunk,
    with [m], [c], [q] typed: the size goes from 3 to 6 and the message says
    so, but the hunk view printed after [c] is the one printed before it, with
    the three context lines of the parse at the top of [process_file], not the
    five a window of 6 gives.  The same holds of [process_file] called on the
    file. *)
Theorem more_context_renders_stale_window :
  let E := calm [] in
  let w := mergetool_session {[ "f.txt" := deep_file ]} "f.txt" ["m"; "c"; "q"] in
  let file_mode := new_resolver w in
  let hunk_mode := {| editor := "nano"; view_mode := HUNK; context_lines := 3 |} in
  let run := main E mergetool_argv w in
  let call := process_file E "f.txt" file_mode w in
  parse_conflicts 3 deep_file = Done [deep_hunk_3]
  /\ parse_conflicts 6 deep_file = Done [deep_hunk_6]
  /\ run.1 = SysExit 0
  /\ stdout run.2
     = [line (NL +:+ ansi BLUE +:+ "File: f.txt"); line (ansi BLUE +:+ rule 80)]
       ++ file_view_lines E 1 false deep_file
       ++ menu E file_mode
       ++ [prompt_text; line (ansi CYAN +:+ "Switched to hunk view.")]
       ++ display_hunks E 0 [deep_hunk_3]
       ++ menu E hunk_mode
       ++ [prompt_text; line (ansi CYAN +:+ "Showing 6 lines of context.")]
       ++ display_hunks E 0 [deep_hunk_3]
       ++ menu E hunk_mode
       ++ [prompt_text; line (ansi MAGENTA +:+ "Quitting script.")]
  /\ call.1.1 = SysExit 0
  /\ context_lines call.1.2 = 6
  /\ stdout call.2 = stdout run.2
  /\ display_hunks E 0 [deep_hunk_3] <> display_hunks E 0 [deep_hunk_6].
Proof. vm_compute. repeat split. discriminate. Qed.

(** ** Quitting *)

Lemma read_choice_asks_again (E : Collaborators) (self : Resolver)
    (pre : list string) (raw : string) (rest : list string) :
  Forall asks_again pre -> lower (strip raw) = "q" ->
  exists c rest' printed,
    read_choice E self (pre ++ raw :: rest) = (Done c, rest', printed)
    /\ ((c = "q" /\ rest' = rest)
        \/ ((c = "m" \/ c = "c")
            /\ exists pre', rest' = pre' ++ raw :: rest
                 /\ Forall asks_again pre'
                 /\ (length pre' < length pre)%nat)).
Proof.
  intros Hpre Hq.
  induction pre as [|l pre IH]; cbn [app read_choice].
  - rewrite Hq, (in_options_keys self "q") by set_solver.
    exists "q", rest, [prompt_text]. split; [reflexivity|]. left. auto.
  - apply Forall_cons in Hpre as [Hl Hpre]. destruct Hl as [Hinv|Hmc].
    + rewrite in_options_false by assumption.
      destruct (IH Hpre) as (c & rest' & printed & -> & Hcase).
      eexists c, rest', _. split; [reflexivity|].
      destruct Hcase as [Hcase|[Hc (pre' & Hr & Hp & Hlen)]];
        [left; exact Hcase|].
      right. split; [exact Hc|]. exists pre'.
      split; [exact Hr|]. split; [exact Hp|]. cbn [length]. lia.
    + assert (Hopt : in_options self (lower (strip l)) = true).
      { apply in_options_keys.
        destruct Hmc as [Hm|Hm]; rewrite Hm; apply (bool_decide_unpack _);
          vm_compute; exact I. }
      rewrite Hopt.
      exists (lower (strip l)), (pre ++ raw :: rest), [prompt_text].
      split; [reflexivity|]. right. split; [exact Hmc|].
      exists pre. split; [reflexivity|]. split; [exact Hpre|].
      cbn [length]. lia.
Qed.

(** [q] ends the loop in [sys.exit(0)] at whatever turn it is typed, after
    any number of lines that only make the loop prompt again. *)
Lemma controller_loop_quit (E : Collaborators) (attr : option method)
    (p : string) (hs : list ConflictHunk) :
  forall (fuel : nat) (pre : list string) (self : Resolver) (w : World)
         (raw : string) (rest : list string),
  stdin w = pre ++ raw :: rest -> Forall asks_again pre ->
  lower (strip raw) = "q" -> (length pre < fuel)%nat ->
  exists self' w',
    controller_loop E attr fuel p hs self w = (SysExit 0, self', w')
    /\ files w' = files w /\ staged w' = staged w /\ stdin w' = rest
    /\ last (stdout w') = Some (line (Fore E MAGENTA +:+ "Quitting script.")).
Proof.
  induction fuel as [|fuel IH]; intros pre self w raw rest Hin Hpre Hq Hfuel;
    [lia|].
  cbn [controller_loop]. unfold prompt_user.
  destruct (render_frame E p hs self w) as (Hf & Hs & Hstdin & _).
  rewrite Hstdin, Hin.
  destruct (read_choice_asks_again E self pre raw rest Hpre Hq)
    as (c & rest' & printed & -> & Hcase).
  cbv beta iota.
  destruct Hcase as [[-> ->]|[Hmc (pre' & -> & Hpre' & Hlen)]].
  - rewrite dispatch_quit. eexists _, _. split; [reflexivity|].
    cbn [files staged stdin stdout set_stdin put].
    split; [exact Hf|]. split; [exact Hs|]. split; [reflexivity|].
    apply last_snoc.
  - assert (Hstep : exists self1 w3,
        dispatch E attr p hs c self
          (set_stdin (pre' ++ raw :: rest)
             (put (menu E self ++ printed) (render E p hs self w)))
        = (Done Continue, self1, w3)
        /\ files w3 = files w /\ staged w3 = staged w
        /\ stdin w3 = pre' ++ raw :: rest).
    { destruct Hmc as [-> | ->].
      - rewrite dispatch_toggle. cbv zeta. eexists _, _.
        split; [reflexivity|]. cbn [files staged stdin set_stdin put]. auto.
      - rewrite dispatch_more_context. cbv zeta. eexists _, _.
        split; [reflexivity|]. cbn [files staged stdin set_stdin put]. auto. }
    destruct Hstep as (self1 & w3 & -> & Hf3 & Hs3 & Hi3).
    destruct (IH pre' self1 w3 raw rest Hi3 Hpre' Hq ltac:(lia))
      as (self' & w' & -> & Hf' & Hs' & Hi' & Hlast).
    exists self', w'. split; [reflexivity|].
    split; [congruence|]. split; [congruence|]. split; [exact Hi'|].
    exact Hlast.
Qed.

(** The loop over the files goes past the paths without hunk. *)
Lemma process_files_past_marker_free (E : Collaborators) (qs : list string) :
  forall (ps : list string) (self : Resolver) (w : World),
  Forall (marker_free (files w)) qs ->
  exists out,
    process_files E (qs ++ ps) self w = process_files E ps self (put out w).
Proof.
  induction qs as [|q qs IH]; intros ps self w H; cbn [app].
  - exists []. rewrite put_nil. reflexivity.
  - apply Forall_cons in H as [Hq H]. cbn [process_files].
    destruct (process_file_marker_free E q self w Hq) as [out ->].
    destruct (IH ps self
                (put (out ++ [line (Fore E YELLOW
                        +:+ "No conflict hunks found in this file.")]) w) H)
      as [out' ->].
    eexists. rewrite put_put. reflexivity.
Qed.

(** C8: at any turn of the loop, whatever the loop did before, [q] typed
    at the prompt (also after lines that are no command) ends the loop in
    [sys.exit(0)] with the files and the index as they were and nothing more
    read.  And the exit is caught nowhere: [q] typed at a prompt of a file (as
    the first line, or after lines that only make the loop prompt again: lines
    that are no command, [m] and [c]) ends [process_file] in [sys.exit(0)],
    the last thing printed being the quitting message; it ends the loop over
    the conflicted files, whichever files come after and whichever files
    without hunk came before; and it ends the merge-tool run of [main]. *)
Theorem quit_exits_at_once (E : Collaborators) :
  (forall attr fuel p hs self w bad raw rest,
     stdin w = bad ++ raw :: rest ->
     Forall (fun r => in_options self (lower (strip r)) = false) bad ->
     lower (strip raw) = "q" ->
     exists w',
       controller_loop E attr (S fuel) p hs self w = (SysExit 0, self, w')
       /\ files w' = files w /\ staged w' = staged w /\ stdin w' = rest)
  /\ (forall p self w content h hs pre raw rest,
     files w !! p = Some content ->
     parse_conflicts (context_lines self) content = Done (h :: hs) ->
     stdin w = pre ++ raw :: rest -> Forall asks_again pre ->
     lower (strip raw) = "q" ->
     (exists self' w',
        process_file E p self w = (SysExit 0, self', w')
        /\ files w' = files w /\ staged w' = staged w /\ stdin w' = rest
        /\ last (stdout w')
           = Some (line (Fore E MAGENTA +:+ "Quitting script.")))
     /\ (forall qs ps,
           Forall (marker_free (files w)) qs ->
           exists self' w',
             process_files E (qs ++ p :: ps) self w = (SysExit 0, self', w')
             /\ files w' = files w /\ staged w' = staged w /\ stdin w' = rest
             /\ last (stdout w')
                = Some (line (Fore E MAGENTA +:+ "Quitting script."))))
  /\ (forall prog args w l b r m content h hs pre raw rest,
        environ w !! "LOCAL" = Some l -> l <> "" ->
        environ w !! "BASE" = Some b -> b <> "" ->
        environ w !! "REMOTE" = Some r -> r <> "" ->
        environ w !! "MERGED" = Some m -> m <> "" ->
        repo_init E w = None ->
        files w !! m = Some content ->
        parse_conflicts 3 content = Done (h :: hs) ->
        stdin w = pre ++ raw :: rest -> Forall asks_again pre ->
        lower (strip raw) = "q" ->
        exists w',
          main E (prog :: "--mergetool" :: args) w = (SysExit 0, w')
          /\ files w' = files w /\ staged w' = staged w /\ stdin w' = rest
          /\ last (stdout w')
             = Some (line (Fore E MAGENTA +:+ "Quitting script."))).
Proof.
  assert (Hfile : forall p self w content h hs pre raw rest,
     files w !! p = Some content ->
     parse_conflicts (context_lines self) content = Done (h :: hs) ->
     stdin w = pre ++ raw :: rest -> Forall asks_again pre ->
     lower (strip raw) = "q" ->
     exists self' w',
       process_file E p self w = (SysExit 0, self', w')
       /\ files w' = files w /\ staged w' = staged w /\ stdin w' = rest
       /\ last (stdout w')
          = Some (line (Fore E MAGENTA +:+ "Quitting script."))).
  { intros p self w content h hs pre raw rest Hf Hp Hin Hpre Hq.
    rewrite (process_file_enters_loop E p self w content h hs Hf Hp).
    apply (controller_loop_quit E resolve_hunk p (h :: hs)
             (S (length (stdin w))) pre self w raw rest Hin Hpre Hq).
    rewrite Hin, length_app. cbn [length]. lia. }
  split; [|split].
  - intros attr fuel p hs self w bad raw rest Hin Hbad Hq.
    rewrite (controller_loop_first E attr fuel p hs self w bad raw rest Hin Hbad)
      by (rewrite Hq; apply in_options_keys; apply (bool_decide_unpack _);
          vm_compute; exact I).
    rewrite Hq, dispatch_quit. eexists. split; [reflexivity|].
    destruct (render_frame E p hs self w) as (Hf & Hs & _).
    cbn [files staged stdin set_stdin put]. auto.
  - intros p self w content h hs pre raw rest Hf Hp Hin Hpre Hq.
    split; [exact (Hfile p self w content h hs pre raw rest Hf Hp Hin Hpre Hq)|].
    intros qs ps Hqs.
    destruct (process_files_past_marker_free E qs (p :: ps) self w Hqs)
      as [out ->].
    destruct (Hfile p self (put out w) content h hs pre raw rest Hf Hp Hin
                Hpre Hq) as (self' & w' & Hrun & Hfw & Hsw & Hiw & Hlast).
    exists self', w'. split; [|auto].
    apply process_files_stops; [exact Hrun | discriminate].
  - intros prog args w l b r m content h hs pre raw rest
      Hl Hl' Hb Hb' Hr Hr' Hm Hm' Hinit Hf Hp Hin Hpre Hq.
    rewrite (main_mergetool_mode E prog args w l b r m) by assumption.
    unfold init. rewrite Hinit.
    destruct (Hfile m (new_resolver w) w content h hs pre raw rest Hf Hp Hin
                Hpre Hq) as (self' & w' & -> & Hfw & Hsw & Hiw & Hlast).
    exists w'. auto.
Qed.

Lemma quit_exits_at_once_witness :
  let w := session {[ "f.txt" := scenario_file; "g.txt" := scenario_file ]}
             ["m"; "what"; "c"; " Q "; "o"] in
  exists self' w',
    process_files (calm []) (["gone.txt"] ++ "f.txt" :: ["g.txt"])
      (new_resolver w) w
    = (SysExit 0, self', w')
    /\ files w' = files w /\ staged w' = staged w /\ stdin w' = ["o"]
    /\ last (stdout w') = Some (line (ansi MAGENTA +:+ "Quitting script.")).
Proof.
  intros w.
  apply (proj2 (proj1 (proj2 (quit_exits_at_once (calm []))) "f.txt"
                  (new_resolver w) w
                  scenario_file scenario_hunk [] ["m"; "what"; "c"] " Q " ["o"]
                  eq_refl eq_refl eq_refl
                  ltac:(apply Forall_cons; split; [right; left; reflexivity|];
                        apply Forall_cons; split;
                          [left; apply (bool_decide_unpack _); vm_compute; exact I|];
                        apply Forall_cons; split; [right; right; reflexivity|];
                        apply Forall_nil_2)
                  eq_refl)
           ["gone.txt"] ["g.txt"]).
  repeat constructor.
Defined.

(** ** The listing of the conflicted files *)

(** C10: with [--mergetool] as first argument and one of [LOCAL], [BASE],
    [REMOTE], [MERGED] not set, [main] reports nothing of its own and is the
    regular run, the same as with no argument.  But the regular run processes
    no file: as soon as the index has an unmerged path, line 48 asks a list
    for [a_path] and the run ends in that [AttributeError], with nothing
    printed and nothing read. *)
Theorem mergetool_unset_falls_through (E : Collaborators) (prog : string)
    (rest : list string) (w : World) :
  environ w !! "LOCAL" = None \/ environ w !! "BASE" = None
  \/ environ w !! "REMOTE" = None \/ environ w !! "MERGED" = None ->
  main E (prog :: "--mergetool" :: rest) w = regular_operation E w
  /\ main E [prog] w = regular_operation E w
  /\ (forall p ps,
        repo_init E w = None -> unmerged_paths E w = inr (p :: ps) ->
        main E (prog :: "--mergetool" :: rest) w
        = (Raised (AttributeError "list" "a_path"), w)).
Proof.
  intros Hunset.
  assert (Hmain : main E (prog :: "--mergetool" :: rest) w = regular_operation E w).
  { unfold main.
    destruct Hunset as [H|[H|[H|H]]]; rewrite H; cbn [truthy andb];
      rewrite ?andb_false_r; reflexivity. }
  split; [exact Hmain|]. split; [reflexivity|].
  intros p ps Hinit Hlist.
  rewrite Hmain, regular_operation_cases, Hinit, Hlist. reflexivity.
Qed.

Lemma mergetool_unset_falls_through_witness :
  let E := calm ["f.txt"] in
  let w := {| environ := {[ "LOCAL" := "f.LOCAL"; "BASE" := "f.BASE";
                             "REMOTE" := "f.REMOTE" ]};
              files := {[ "f.txt" := scenario_file ]};
              stdin := ["q"]; stdout := []; staged := [] |} in
  main E ["git-simple-merge.py"; "--mergetool"] w
  = (Raised (AttributeError "list" "a_path"), w).
Proof.
  intros E w.
  apply (proj2 (proj2 (mergetool_unset_falls_through E "git-simple-merge.py"
                         [] w ltac:(right; right; right; reflexivity)))
           "f.txt" []); reflexivity.
Defined.

(** * Further properties, on the files read *)

(** ** What [get_conflicts] returns *)

(** X7: for a file that opens and decodes to lines, [get_conflicts]
    returns the hunks of those lines and prints nothing: the [TypeError] that
    [extract_context] raises on an unset [hunk_start] cannot occur, whatever
    the lines are.  When opening the file raises [IOError], it prints the one
    error line and returns no hunk. *)
Theorem get_conflicts_on_read_file (E : Collaborators) (self : Resolver)
    (p : string) (w : World) :
  (forall content,
     files w !! p = Some content ->
     exists hs,
       parse_conflicts (context_lines self) content = Done hs
       /\ get_conflicts E self p w = (Done hs, w))
  /\ (files w !! p = None ->
      get_conflicts E self p w
      = (Done [],
         put [line (Fore E RED +:+ "Error reading file " +:+ p +:+ ": "
                    +:+ ioerror_text E p)] w)).
Proof.
  unfold get_conflicts, get_file_content. split.
  - intros content ->.
    destruct (parse_conflicts_total (context_lines self) content) as [hs Hhs].
    exists hs. split; [exact Hhs|]. rewrite Hhs, put_nil. reflexivity.
  - intros ->. reflexivity.
Qed.

Lemma get_conflicts_on_read_file_witness :
  let w := session {[ "f.txt" := deep_file ]} [] in
  exists hs,
    parse_conflicts 3 deep_file = Done hs
    /\ get_conflicts (calm []) (new_resolver w) "f.txt" w = (Done hs, w).
Proof.
  intros w.
  exact (proj1 (get_conflicts_on_read_file (calm []) (new_resolver w) "f.txt" w)
           deep_file eq_refl).
Defined.

(** ** Paths without hunk, one after the other *)

Lemma process_file_no_hunk (E : Collaborators) (p : string) (self : Resolver)
    (w : World) :
  marker_free (files w) p ->
  process_file E p self w
  = (Done tt, self, put (no_hunk_report E (files w) p) w).
Proof.
  unfold marker_free, no_hunk_report, process_file, process_file_with,
    get_conflicts, get_file_content.
  destruct (files w !! p) as [content|]; intros H; cbv beta iota zeta.
  - rewrite parse_marker_free by assumption. rewrite put_put. reflexivity.
  - rewrite parse_marker_free by constructor. rewrite put_put. reflexivity.
Qed.

(** X9: the loop over the conflicted files (lines 254-255), given paths
    none of which holds a start marker or can be read, prompts for nothing and
    returns with the resolver it had: for each path in turn it prints the
    error of the failed read, if any, and that no hunk was found, and nothing
    else; no typed line is read. *)
Theorem marker_free_files_complete (E : Collaborators) (ps : list string) :
  forall (self : Resolver) (w : World),
  Forall (marker_free (files w)) ps ->
  process_files E ps self w
  = (Done tt, self, put (flat_map (no_hunk_report E (files w)) ps) w).
Proof.
  induction ps as [|p ps IH]; intros self w H; cbn [process_files flat_map].
  - rewrite put_nil. reflexivity.
  - apply Forall_cons in H as [Hp H].
    rewrite (process_file_no_hunk E p self w Hp).
    rewrite (IH self (put (no_hunk_report E (files w) p) w) H).
    rewrite put_put. reflexivity.
Qed.

Lemma marker_free_files_complete_witness :
  let w := session {[ "f.txt" := [ln "a"; ln "b"] ]} ["q"] in
  process_files (calm []) ["f.txt"; "gone.txt"] (new_resolver w) w
  = (Done tt, new_resolver w,
     put (flat_map (no_hunk_report (calm []) (files w)) ["f.txt"; "gone.txt"])
         w).
Proof.
  intros w.
  apply (marker_free_files_complete (calm []) ["f.txt"; "gone.txt"]
           (new_resolver w) w).
  repeat constructor.
Defined.

(** ** The colours of the file view *)

Lemma file_view_start (E : Collaborators) (i : Z) (b : bool) (l : string)
    (r : list string) :
  is_start l = true ->
  file_view_lines E i b (l :: r)
  = numbered E RED i l :: file_view_lines E (i + 1) true r.
Proof.
  intros H. unfold is_start in H. cbn [file_view_lines]. rewrite H.
  reflexivity.
Qed.

Lemma file_view_separator (E : Collaborators) (i : Z) (l : string)
    (r : list string) :
  is_separator l = true ->
  file_view_lines E i true (l :: r)
  = numbered E YELLOW i l :: file_view_lines E (i + 1) true r.
Proof.
  intros H. unfold is_separator in H.
  assert (Hopen : startswith l "<<<<<<<" = false)
    by (eapply startswith_other_head; [eassumption | discriminate]).
  cbn [file_view_lines]. rewrite Hopen, H. reflexivity.
Qed.

Lemma file_view_end (E : Collaborators) (i : Z) (l : string)
    (r : list string) :
  is_end l = true ->
  file_view_lines E i true (l :: r)
  = numbered E GREEN i l :: file_view_lines E (i + 1) false r.
Proof.
  intros H. unfold is_end in H.
  assert (Hopen : startswith l "<<<<<<<" = false)
    by (eapply startswith_other_head; [eassumption | discriminate]).
  assert (Hsep : startswith l "=======" = false)
    by (eapply startswith_other_head; [eassumption | discriminate]).
  cbn [file_view_lines]. rewrite Hopen, Hsep, H. reflexivity.
Qed.

Lemma file_view_plain_app (E : Collaborators) (a : list string) :
  forall (i : Z) (r : list string),
  Forall (fun l => is_start l = false) a ->
  file_view_lines E i false (a ++ r)
  = coloured E RESET_ALL i a ++ file_view_lines E (i + len a) false r.
Proof.
  induction a as [|l a IH]; intros i r H; cbn [app coloured].
  - replace (i + len []) with i by (unfold len; cbn [length]; lia).
    reflexivity.
  - apply Forall_cons in H as [Hl H]. unfold is_start in Hl.
    replace (i + len (l :: a)) with (i + 1 + len a)
      by (unfold len; cbn [length]; lia).
    cbn [file_view_lines]. rewrite Hl, !andb_false_r. cbv beta iota.
    rewrite IH by assumption. reflexivity.
Qed.

Lemma file_view_plain (E : Collaborators) (a : list string) (i : Z) :
  Forall (fun l => is_start l = false) a ->
  file_view_lines E i false a = coloured E RESET_ALL i a.
Proof.
  intros H. rewrite <- (app_nil_r a) at 1.
  rewrite file_view_plain_app by assumption. cbn [file_view_lines].
  apply app_nil_r.
Qed.

Lemma file_view_red_app (E : Collaborators) (a : list string) :
  forall (i : Z) (r : list string),
  Forall is_body a ->
  file_view_lines E i true (a ++ r)
  = coloured E RED i a ++ file_view_lines E (i + len a) true r.
Proof.
  induction a as [|l a IH]; intros i r H; cbn [app coloured].
  - replace (i + len []) with i by (unfold len; cbn [length]; lia).
    reflexivity.
  - apply Forall_cons in H as [(H1 & H2 & H3) H].
    unfold is_start, is_separator, is_end in H1, H2, H3.
    replace (i + len (l :: a)) with (i + 1 + len a)
      by (unfold len; cbn [length]; lia).
    cbn [file_view_lines]. rewrite H1, H2, H3. cbn [andb]. cbv beta iota zeta.
    rewrite IH by assumption. reflexivity.
Qed.

(** X23: the file view prints one entry per line of the file, in order:
    the line behind its number, counted from the first index, in one of four
    colours; a start-marker line is red, yellow is used for separator lines
    only and green for end-marker lines only.  For a file made of one block
    whose body lines begin with none of the three tokens, between lines
    without start marker, the view is: the lines above plain, the start
    marker red, every ours line red, the separator yellow, every theirs line
    red as well, the end marker green, the lines below plain. *)
Theorem file_view_line_by_line (E : Collaborators) :
  (forall (content : list string) (i : Z) (b : bool),
     length (file_view_lines E i b content) = length content
     /\ forall (j : nat) (out : string),
          file_view_lines E i b content !! j = Some out ->
          exists l c,
            content !! j = Some l
            /\ out = numbered E c (i + Z.of_nat j) l
            /\ c ∈ view_colours
            /\ (is_start l = true -> c = RED)
            /\ (c = YELLOW -> is_separator l = true)
            /\ (c = GREEN -> is_end l = true))
  /\ (forall (i : Z) (pre os ts post : list string) (start sep end_ : string),
        Forall (fun l => is_start l = false) pre ->
        is_start start = true -> Forall is_body os ->
        is_separator sep = true -> Forall is_body ts ->
        is_end end_ = true ->
        Forall (fun l => is_start l = false) post ->
        let s := i + len pre in
        let m := s + 1 + len os in
        let e := m + 1 + len ts in
        file_view_lines E i false
          (pre ++ [start] ++ os ++ [sep] ++ ts ++ [end_] ++ post)
        = coloured E RESET_ALL i pre
          ++ [numbered E RED s start]
          ++ coloured E RED (s + 1) os
          ++ [numbered E YELLOW m sep]
          ++ coloured E RED (m + 1) ts
          ++ [numbered E GREEN e end_]
          ++ coloured E RESET_ALL (e + 1) post).
Proof.
  split.
  - induction content as [|l rest IH]; intros i b.
    + split; [reflexivity|]. intros j out H. destruct j; discriminate H.
    + destruct (file_view_cons E i b l rest)
        as (c & b' & -> & Hc & Hs & Hy & Hg & _).
      destruct (IH (i + 1) b') as [Hlen Hlook]. split.
      * cbn [length]. rewrite Hlen. reflexivity.
      * intros [|j] out H.
        -- cbn in H. assert (out = numbered E c i l) as -> by congruence.
           exists l, c. split; [reflexivity|].
           split; [f_equal; lia|]. auto.
        -- destruct (Hlook j out H) as (l' & c' & H1 & -> & H3).
           exists l', c'. split; [exact H1|].
           split; [f_equal; lia | exact H3].
  - intros i pre os ts post start sep end_ Hpre Hstart Hos Hsep Hts Hend Hpost
      s m e. subst s m e.
    rewrite file_view_plain_app by assumption. cbn [app].
    rewrite file_view_start by assumption.
    rewrite file_view_red_app by assumption. cbn [app].
    rewrite file_view_separator by assumption.
    rewrite file_view_red_app by assumption. cbn [app].
    rewrite file_view_end by assumption.
    rewrite file_view_plain by assumption.
    reflexivity.
Qed.

Lemma file_view_line_by_line_witness :
  file_view_lines (calm []) 1 false
    ([ln "a"] ++ [ln "<<<<<<< HEAD"] ++ [ln "x"] ++ [ln "======="] ++ [ln "y"]
     ++ [ln ">>>>>>> branch"] ++ [ln "b"])
  = coloured (calm []) RESET_ALL 1 [ln "a"]
    ++ [numbered (calm []) RED (1 + len [ln "a"]) (ln "<<<<<<< HEAD")]
    ++ coloured (calm []) RED (1 + len [ln "a"] + 1) [ln "x"]
    ++ [numbered (calm []) YELLOW (1 + len [ln "a"] + 1 + len [ln "x"])
          (ln "=======")]
    ++ coloured (calm []) RED (1 + len [ln "a"] + 1 + len [ln "x"] + 1) [ln "y"]
    ++ [numbered (calm []) GREEN
          (1 + len [ln "a"] + 1 + len [ln "x"] + 1 + len [ln "y"])
          (ln ">>>>>>> branch")]
    ++ coloured (calm []) RESET_ALL
         (1 + len [ln "a"] + 1 + len [ln "x"] + 1 + len [ln "y"] + 1) [ln "b"].
Proof.
  apply (proj2 (file_view_line_by_line (calm [])) 1 [ln "a"] [ln "x"] [ln "y"]
           [ln "b"] (ln "<<<<<<< HEAD") (ln "=======") (ln ">>>>>>> branch"));
    try reflexivity; repeat constructor.
Defined.

(** ** A start marker inside an open block *)

Lemma scan_step_restart (k : Z) (content : list string) (i : Z) (l : string)
    (hs : list ConflictHunk) (hd : string) (s : Z) (os ts : list string)
    (sd : side) :
  is_start l = true ->
  scan_step k content i l (open_at hs hd s os ts sd)
  = Done (open_at (hs ++ [hunk_on k content hd os ts s i]) l i [] [] Ours).
Proof.
  intros H. unfold is_start in H. unfold scan_step, open_at. rewrite H.
  reflexivity.
Qed.

(** The scan of a well-formed block that begins while a block is open. *)
Lemma scan_restart_block (k : Z) (content : list string) (i : Z)
    (hs : list ConflictHunk) (hd : string) (s : Z) (os ts : list string)
    (sd : side) (start2 sep end_ : string) (os2 ts2 post : list string) :
  is_start start2 = true ->
  Forall (fun l => is_start l = false /\ is_separator l = false) os2 ->
  is_separator sep = true ->
  Forall (fun l => is_start l = false /\ is_end l = false) ts2 ->
  is_end end_ = true ->
  Forall (fun l => is_start l = false) post ->
  scan_loop k content i ([start2] ++ os2 ++ [sep] ++ ts2 ++ [end_] ++ post)
    (open_at hs hd s os ts sd)
  = Done {| hunks :=
              (hs ++ [hunk_on k content hd os ts s i])
              ++ [hunk_on k content start2 os2 (ts2 ++ [end_]) i
                    (i + 1 + len os2 + 1 + len ts2 + 1)];
            current_hunk := None; state := None; hunk_start := Some i |}.
Proof.
  intros Hstart2 Hos2 Hsep Hts2 Hend Hpost.
  cbn [app scan_loop].
  rewrite scan_step_restart by assumption.
  cbn [mbind outcome_bind obind].
  rewrite scan_loop_app, scan_loop_ours by assumption.
  cbn [mbind outcome_bind obind app scan_loop].
  rewrite scan_step_separator by assumption.
  cbn [mbind outcome_bind obind].
  rewrite scan_loop_app, scan_loop_theirs by assumption.
  cbn [mbind outcome_bind obind app scan_loop].
  rewrite scan_step_end by assumption.
  cbn [mbind outcome_bind obind].
  rewrite scan_loop_idle by (assumption || reflexivity).
  reflexivity.
Qed.

Lemma context_after_head (k : Z) (content head_ tail_ : list string)
    (l : string) (s : Z) :
  content = head_ ++ l :: tail_ -> 0 < k ->
  exists tl, snd (extract_context k content s (len head_)) = l :: tl.
Proof.
  intros Hc Hk.
  assert (Hlen : len content = len head_ + 1 + len tail_).
  { rewrite Hc. unfold len. rewrite length_app. cbn [length]. lia. }
  assert (H0 : 0 <= len tail_) by (unfold len; lia).
  assert (H1 : 0 <= len head_) by (unfold len; lia).
  rewrite after_window by lia. rewrite Hc.
  replace (Z.to_nat (len head_)) with (length head_) by (unfold len; lia).
  rewrite drop_app_length.
  destruct (Z.to_nat k) as [|n] eqn:Hn; [lia|].
  exists (take n tail_). reflexivity.
Qed.

(** X26: a start marker met while a block is open closes that block as
    a hunk of its own, without end-marker line: met before a separator, the
    lines read so far are the ours lines of that hunk and it has no theirs
    line; met after a separator, the lines before the separator are its ours
    lines and the lines after it its theirs lines.  In both cases the span of
    the hunk ends at the new marker, so for a size above 0 its context after
    begins with the new start-marker line, and the block the new marker opens
    is parsed as usual. *)
Theorem restart_closes_open_hunk (k : Z) (pre os ts1 os2 ts2 post : list string)
    (start1 sep1 start2 sep end_ : string) :
  Forall (fun l => is_start l = false) pre ->
  is_start start1 = true ->
  Forall (fun l => is_start l = false /\ is_separator l = false) os ->
  is_start start2 = true ->
  Forall (fun l => is_start l = false /\ is_separator l = false) os2 ->
  is_separator sep = true ->
  Forall (fun l => is_start l = false /\ is_end l = false) ts2 ->
  is_end end_ = true ->
  Forall (fun l => is_start l = false) post ->
  let block2 := [start2] ++ os2 ++ [sep] ++ ts2 ++ [end_] ++ post in
  let s1 := len pre in
  (let content := pre ++ [start1] ++ os ++ block2 in
   let s2 := len pre + 1 + len os in
   let e2 := s2 + 1 + len os2 + 1 + len ts2 + 1 in
   parse_conflicts k content
   = Done [hunk_on k content start1 os [] s1 s2;
           hunk_on k content start2 os2 (ts2 ++ [end_]) s2 e2]
   /\ (0 < k ->
       exists tl,
         context_after (hunk_on k content start1 os [] s1 s2) = start2 :: tl))
  /\ (is_separator sep1 = true ->
      Forall (fun l => is_start l = false /\ is_end l = false) ts1 ->
      let content := pre ++ [start1] ++ os ++ [sep1] ++ ts1 ++ block2 in
      let s2 := len pre + 1 + len os + 1 + len ts1 in
      let e2 := s2 + 1 + len os2 + 1 + len ts2 + 1 in
      parse_conflicts k content
      = Done [hunk_on k content start1 os ts1 s1 s2;
              hunk_on k content start2 os2 (ts2 ++ [end_]) s2 e2]
      /\ (0 < k ->
          exists tl,
            context_after (hunk_on k content start1 os ts1 s1 s2)
            = start2 :: tl)).
Proof.
  intros Hpre Hstart1 Hos Hstart2 Hos2 Hsep Hts2 Hend Hpost block2 s1.
  split.
  - intros content s2 e2. split.
    + unfold parse_conflicts. unfold content at 2.
      rewrite scan_loop_app, scan_loop_idle by (assumption || reflexivity).
      cbn [mbind outcome_bind obind app scan_loop].
      rewrite scan_step_open by (assumption || reflexivity).
      cbn [mbind outcome_bind obind hunks scan_init].
      rewrite scan_loop_app, scan_loop_ours by assumption.
      cbn [mbind outcome_bind obind].
      unfold block2.
      rewrite scan_restart_block by assumption.
      reflexivity.
    + intros Hk. cbn [context_after hunk_on].
      replace s2 with (len (pre ++ [start1] ++ os))
        by (subst s2; unfold len; rewrite !length_app; cbn [length]; lia).
      apply (context_after_head k content (pre ++ [start1] ++ os)
               (os2 ++ [sep] ++ ts2 ++ [end_] ++ post) start2 s1); [|exact Hk].
      subst content block2. rewrite <- !app_assoc. reflexivity.
  - intros Hsep1 Hts1 content s2 e2. split.
    + unfold parse_conflicts. unfold content at 2.
      rewrite scan_loop_app, scan_loop_idle by (assumption || reflexivity).
      cbn [mbind outcome_bind obind app scan_loop].
      rewrite scan_step_open by (assumption || reflexivity).
      cbn [mbind outcome_bind obind hunks scan_init].
      rewrite scan_loop_app, scan_loop_ours by assumption.
      cbn [mbind outcome_bind obind app scan_loop].
      rewrite scan_step_separator by assumption.
      cbn [mbind outcome_bind obind].
      rewrite scan_loop_app, scan_loop_theirs by assumption.
      cbn [mbind outcome_bind obind].
      unfold block2.
      rewrite scan_restart_block by assumption.
      reflexivity.
    + intros Hk. cbn [context_after hunk_on].
      replace s2 with (len (pre ++ [start1] ++ os ++ [sep1] ++ ts1))
        by (subst s2; unfold len; rewrite !length_app; cbn [length]; lia).
      apply (context_after_head k content
               (pre ++ [start1] ++ os ++ [sep1] ++ ts1)
               (os2 ++ [sep] ++ ts2 ++ [end_] ++ post) start2 s1); [|exact Hk].
      subst content block2. rewrite <- !app_assoc. reflexivity.
Qed.

Lemma restart_closes_open_hunk_witness :
  let content :=
    [ln "a"] ++ [ln "<<<<<<< one"] ++ [ln "x"] ++ [ln "======="] ++ [ln "y"]
    ++ [ln "<<<<<<< two"] ++ [ln "u"] ++ [ln "======="] ++ [ln "v"]
    ++ [ln ">>>>>>> two"] ++ [ln "b"] in
  parse_conflicts 3 content
  = Done [hunk_on 3 content (ln "<<<<<<< one") [ln "x"] [ln "y"]
            (len [ln "a"])
            (len [ln "a"] + 1 + len [ln "x"] + 1 + len [ln "y"]);
          hunk_on 3 content (ln "<<<<<<< two") [ln "u"]
            ([ln "v"] ++ [ln ">>>>>>> two"])
            (len [ln "a"] + 1 + len [ln "x"] + 1 + len [ln "y"])
            (len [ln "a"] + 1 + len [ln "x"] + 1 + len [ln "y"]
             + 1 + len [ln "u"] + 1 + len [ln "v"] + 1)].
Proof.
  intros content.
  apply (proj2 (restart_closes_open_hunk 3 [ln "a"] [ln "x"] [ln "y"]
                  [ln "u"] [ln "v"] [ln "b"] (ln "<<<<<<< one") (ln "=======")
                  (ln "<<<<<<< two") (ln "=======") (ln ">>>>>>> two")
                  ltac:(repeat constructor) eq_refl ltac:(repeat constructor)
                  eq_refl ltac:(repeat constructor) eq_refl
                  ltac:(repeat constructor) eq_refl ltac:(repeat constructor))
           eq_refl ltac:(repeat constructor)).
Defined.
